(** * Nuitka test infrastructure: nuitka/tools/testing/Common.py

    A shallow embedding of the leak detector ([checkReferenceCount],
    [snapObjRefCntMap]), the access tracer ([getRuntimeTraceOfLoadedFiles]),
    the access auditor ([checkRuntimeLoadedFilesForOutsideAccesses]) and the
    comparison runner ([compareWithCPython]), with the properties the
    specification states about them; and of the functions around them: the
    selection of tests by file name ([decideFilenameVersionSkip],
    [decideNeeds2to3], [scanDirectoryForTestCases]), the compile check
    ([checkCompilesNotWithCPython]), the functions on the process
    environment ([addExtendedExtraOptions], [withExtendedExtraOptions],
    [addToPythonPath], [withPythonPathChange]) and [indentedCode].

    Code that can raise or leave the process returns an [outcome]. What a
    function reads from its surroundings (the platform, the file system, the
    processes it starts, the live objects of the interpreter) is an argument
    of its model. *)

From Stdlib Require Import ZArith NArith Ascii String DecimalString List Bool Lia.
From stdpp Require Import base list sorting gmap.

Local Open Scope Z_scope.

(** ** Python strings

    A Python string, [bytes] or [str], is the sequence of its code units: a
    byte is a unit below 256, a character of a [str] is its code point. *)

Definition pystr : Type := list N.

(** A literal, [b"..."] or ["..."] in the source. *)
Definition lit (s : string) : pystr :=
  map N_of_ascii (list_ascii_of_string s).

Module Py.

Definition eqb (a b : pystr) : bool := bool_decide (a = b).

(** [s.startswith(prefix)] *)
Fixpoint startswith (prefix s : pystr) : bool :=
  match prefix, s with
  | [], _ => true
  | _ :: _, [] => false
  | p :: prefix', c :: s' => N.eqb p c && startswith prefix' s'
  end.

(** [s.startswith((p1, p2, ...))] *)
Definition startswith_any (prefixes : list pystr) (s : pystr) : bool :=
  existsb (fun p => startswith p s) prefixes.

(** [s.find(sub)]: the lowest index where [sub] occurs, [-1] if none. *)
Fixpoint find (sub s : pystr) : Z :=
  if startswith sub s then 0
  else match s with
       | [] => -1
       | _ :: s' => let i := find sub s' in if i <? 0 then -1 else i + 1
       end.

(** [sub in s] *)
Definition contains (sub s : pystr) : bool := 0 <=? find sub s.

(** [s.rfind(c)] for a one-unit [c]. *)
Fixpoint rfind_unit (c : N) (s : pystr) : Z :=
  match s with
  | [] => -1
  | x :: s' =>
      let i := rfind_unit c s' in
      if 0 <=? i then i + 1 else if N.eqb x c then 0 else -1
  end.

(** An index of a slice, as Python clamps it for a sequence of length [len]. *)
Definition clamp (len i : Z) : Z :=
  if i <? 0 then Z.max 0 (i + len) else Z.min i len.

(** [s[start:stop]] *)
Definition slice (start stop : Z) (s : pystr) : pystr :=
  let len := Z.of_nat (length s) in
  let i := clamp len start in
  let j := clamp len stop in
  take (Z.to_nat (j - i)) (drop (Z.to_nat i) s).

(** [s[start:]] *)
Definition slice_from (start : Z) (s : pystr) : pystr :=
  drop (Z.to_nat (clamp (Z.of_nat (length s)) start)) s.

(** [s[:stop]] *)
Definition slice_to (stop : Z) (s : pystr) : pystr :=
  take (Z.to_nat (clamp (Z.of_nat (length s)) stop)) s.

(** [s.rstrip(c)] for a one-unit [c]. *)
Fixpoint rstrip_unit (c : N) (s : pystr) : pystr :=
  match s with
  | [] => []
  | x :: s' =>
      match rstrip_unit c s' with
      | [] => if N.eqb x c then [] else [x]
      | r => x :: r
      end
  end.

(** [s.split(c)] for a one-unit separator [c]. *)
Fixpoint split_unit (c : N) (s : pystr) : list pystr :=
  match s with
  | [] => [[]]
  | x :: s' =>
      if N.eqb x c then [] :: split_unit c s'
      else match split_unit c s' with
           | [] => [[x]]
           | piece :: pieces => (x :: piece) :: pieces
           end
  end.

(** [sep.join(parts)] *)
Fixpoint join (sep : pystr) (parts : list pystr) : pystr :=
  match parts with
  | [] => []
  | [p] => p
  | p :: rest => p ++ sep ++ join sep rest
  end.

(** [c * n] for a one-unit [c]. *)
Definition repeat_unit (c : N) (n : nat) : pystr := replicate n c.

(** The order of Python strings: lexicographic on the code units. *)
Fixpoint ltb (a b : pystr) : bool :=
  match a, b with
  | _, [] => false
  | [], _ :: _ => true
  | x :: a', y :: b' => N.ltb x y || (N.eqb x y && ltb a' b')
  end.

Definition leb (a b : pystr) : bool := negb (ltb b a).

Definition le (a b : pystr) : Prop := leb a b = true.
Definition lt (a b : pystr) : Prop := ltb a b = true.

#[global] Instance le_dec : RelDecision le :=
  fun a b => decide (leb a b = true).

(** [sorted(set(l))]: the elements of the set, each once, in ascending
    order. The set's own iteration order is arbitrary, the sort fixes it. *)
Definition sorted_set (l : list pystr) : list pystr :=
  merge_sort le (elements (list_to_set l : gset pystr)).

End Py.

(** ** os.path on the tracing platforms: CPython's posixpath *)

Module posixpath.

Definition sep : N := 47%N.  (* "/" *)
Definition dot : pystr := lit ".".
Definition dotdot : pystr := lit "..".

Definition isabs (s : pystr) : bool := Py.startswith [sep] s.

(** [normcase] is the identity on POSIX. *)
Definition normcase (s : pystr) : pystr := s.

Definition basename (p : pystr) : pystr :=
  let i := Py.rfind_unit sep p + 1 in
  Py.slice_from i p.

Definition dirname (p : pystr) : pystr :=
  let i := Py.rfind_unit sep p + 1 in
  let head := Py.slice_to i p in
  if negb (Py.eqb head []) && negb (Py.eqb head (Py.repeat_unit sep (length head)))
  then Py.rstrip_unit sep head
  else head.

(** [join(a, b)] *)
Definition join (a b : pystr) : pystr :=
  if Py.startswith [sep] b then b
  else if Py.eqb a [] || Py.eqb (Py.slice_from (-1) a) [sep] then a ++ b
  else a ++ [sep] ++ b.

(** One step of the component loop of [normpath]. *)
Definition normpath_step (initial_slashes : nat) (new_comps : list pystr)
    (comp : pystr) : list pystr :=
  if Py.eqb comp [] || Py.eqb comp dot then new_comps
  else if negb (Py.eqb comp dotdot)
          || ((initial_slashes =? 0)%nat && bool_decide (new_comps = []))
          || (negb (bool_decide (new_comps = [])) && bool_decide (last new_comps = Some dotdot))
  then new_comps ++ [comp]
  else if negb (bool_decide (new_comps = [])) then removelast new_comps
  else new_comps.

Definition normpath (path : pystr) : pystr :=
  if Py.eqb path [] then dot
  else
    let initial_slashes :=
      if Py.startswith [sep] path then
        if Py.startswith [sep; sep] path && negb (Py.startswith [sep; sep; sep] path)
        then 2%nat else 1%nat
      else 0%nat in
    let comps := Py.split_unit sep path in
    let new_comps := fold_left (normpath_step initial_slashes) comps [] in
    let path := Py.join [sep] new_comps in
    let path := Py.repeat_unit sep initial_slashes ++ path in
    if Py.eqb path [] then dot else path.

(** [abspath(path)] in the working directory [cwd]. *)
Definition abspath (cwd path : pystr) : pystr :=
  normpath (if isabs path then path else join cwd path).

End posixpath.

(** ** Results of fallible code *)

Inductive exception : Type :=
  | KeyError
  | AssertionError
  | AttributeError
  | UnicodeDecodeError
  | OSError
  | OverflowError
  | StrError.        (* whatever the [__str__] of a live object raises *)

(** The argument of [sys.exit]: a status, or a message for the error stream
    (the status is then 1). *)
Inductive exit_arg : Type :=
  | ExitStatus (status : Z)
  | ExitMessage (message : string).

Inductive outcome (A : Type) : Type :=
  | Returned (a : A)
  | Raised (e : exception)
  | Exited (arg : exit_arg).

Arguments Returned {A} a.
Arguments Raised {A} e.
Arguments Exited {A} arg.

#[global] Instance outcome_bind : MBind outcome := fun A B k m =>
  match m with
  | Returned a => k a
  | Raised e => Raised e
  | Exited arg => Exited arg
  end.

#[global] Instance outcome_ret : MRet outcome := fun A a => Returned a.

(** ** AccessAuditor: checkRuntimeLoadedFilesForOutsideAccesses *)

Module Auditor.

Import posixpath.

(** The inner [while entry:] loop over the ancestor directories of a
    whitelist entry; [ok] is the flag as the loop found it. Every turn
    that does not leave the loop shortens [entry], so [length entry] turns
    (and one more) are enough fuel. *)
Fixpoint ancestor_loop (fuel : nat) (loaded_filename entry : pystr)
    (ok : bool) : bool :=
  match fuel with
  | O => ok
  | S fuel' =>
      if Py.eqb entry [] then ok
      else
        let old_entry := entry in
        let entry := dirname entry in
        if Py.eqb old_entry entry then ok
        else if Py.eqb loaded_filename entry then true
        else ancestor_loop fuel' loaded_filename entry ok
  end.

(** The body of [for entry in white_list]. *)
Definition whitelist_step (loaded_filename : pystr) (ok : bool)
    (entry : pystr) : bool :=
  let ok := if Py.startswith entry loaded_filename then true else ok in
  ancestor_loop (S (length entry)) loaded_filename entry ok.

Definition whitelisted (white_list : list pystr) (loaded_filename : pystr)
    : bool :=
  fold_left (whitelist_step loaded_filename) white_list false.

Definition system_c_libraries : list pystr :=
  map lit
    [ "ld-linux-x86-64.so"; "libc.so."; "libpthread.so."; "libm.so.";
      "libdl.so."; "libBrokenLocale.so."; "libSegFault.so"; "libanl.so.";
      "libcidn.so."; "libcrypt.so."; "libmemusage.so"; "libmvec.so.";
      "libnsl.so."; "libnss_compat.so."; "libnss_db.so."; "libnss_dns.so.";
      "libnss_files.so."; "libnss_hesiod.so."; "libnss_nis.so.";
      "libnss_nisplus.so."; "libpcprofile.so"; "libresolv.so."; "librt.so.";
      "libthread_db-1.0.so"; "libthread_db.so."; "libutil.so." ]%string.

(** The chain of [continue] tests after the whitelist. *)
Definition exempt (loaded_filename : pystr) : bool :=
  let loaded_basename := basename loaded_filename in
  Py.startswith_any [lit "/etc/"; lit "/usr/etc"] loaded_filename
  || (Py.startswith (lit "/proc/") loaded_filename
      || Py.eqb loaded_filename (lit "/proc"))
  || Py.startswith (lit "/dev/") loaded_filename
  || Py.startswith (lit "/tmp/") loaded_filename
  || Py.startswith (lit "/run/") loaded_filename
  || Py.startswith (lit "/sys/") loaded_filename
  || Py.startswith (lit "/usr/lib/locale/") loaded_filename
  || Py.startswith (lit "/usr/share/locale/") loaded_filename
  || Py.startswith (lit "/usr/share/X11/locale/") loaded_filename
  || Py.startswith (lit "/usr/share/themes") loaded_filename
  || (Py.contains (lit "gtk") loaded_filename
      && Py.contains (lit "/engines/") loaded_filename)
  || Py.startswith (lit "/lib/terminfo/") loaded_filename
  || Py.startswith_any system_c_libraries loaded_basename
  || Py.startswith_any [lit "libz.so"; lit "libgcc_s.so"] loaded_basename
  || Py.eqb loaded_basename (lit "gconv-modules.cache")
  || Py.contains (lit "/gconv/") loaded_filename
  || Py.startswith (lit "libicu") loaded_basename
  || Py.eqb loaded_basename (lit ".Xauthority").

(** The paths the auditor lets pass. *)
Definition allowed (white_list : list pystr) (q : pystr) : bool :=
  whitelisted white_list q || exempt q.

(** [normpath] then [normcase], the first two statements of the loop. *)
Definition normalize (loaded_filename : pystr) : pystr :=
  normcase (normpath loaded_filename).

(** The body of [for loaded_filename in loaded_filenames]. *)
Definition audit_step (white_list : list pystr) (result : list pystr)
    (loaded_filename : pystr) : list pystr :=
  let loaded_filename := normalize loaded_filename in
  if whitelisted white_list loaded_filename then result
  else if exempt loaded_filename then result
  else result ++ [loaded_filename].

Definition checkRuntimeLoadedFilesForOutsideAccesses
    (loaded_filenames white_list : list pystr) : list pystr :=
  fold_left (audit_step white_list) loaded_filenames [].

End Auditor.

(** ** AccessTracer: getRuntimeTraceOfLoadedFiles *)

(** What the function reads from the machine it runs on. *)
Record Host : Type := {
  os_name : pystr;                        (* os.name *)
  sys_platform : pystr;                   (* sys.platform *)
  python3 : bool;                         (* str is not bytes; sys.version starts with "3" *)
  environ_PATH : option pystr;            (* os.environ["PATH"] *)
  isfile : pystr -> bool;                 (* os.path.isfile *)
  getcwd : pystr;                         (* os.getcwd(), os.getcwdb() *)
  python_executable : pystr;              (* _python_executable, as bytes *)
  python_version : Z * Z;                 (* _python_version[0], _python_version[1] *)
  run_tracer : list pystr -> Z * pystr;   (* Popen(args).communicate(): exit status, stderr *)
  depends_report : pystr -> list pystr;   (* the lines depends.exe writes for a binary *)
  nt_join : pystr -> pystr -> pystr;      (* ntpath.join *)
  nt_normcase : pystr -> pystr;           (* ntpath.normcase *)
  nt_abspath : pystr -> pystr             (* ntpath.abspath *)
}.

Module Tracer.

Definition quote : N := 34%N.      (* the double quote *)
Definition newline : N := 10%N.
Definition backslash : N := 92%N.
Definition zero : N := 48%N.       (* "0" *)

(** [isExecutableCommand(command)] *)
Definition isExecutableCommand (h : Host) (command : pystr) : outcome bool :=
  match environ_PATH h with
  | None => Raised KeyError
  | Some path =>
      let nt := Py.eqb (os_name h) (lit "nt") in
      let suffixes := if nt then [lit ".exe"] else [[]] in
      let pathsep := (if nt then 59 else 58)%N in      (* ";" and ":" *)
      let os_path_join := if nt then nt_join h else posixpath.join in
      Returned
        (existsb
           (fun part =>
              negb (Py.eqb part [])
              && existsb
                   (fun suffix => isfile h (os_path_join part (command ++ suffix)))
                   suffixes)
           (Py.split_unit pathsep path))
  end.

(** The group of a match of the pattern: the text between the quotes,
    without a closing backslash-zero. *)
Definition strip_nul (group : pystr) : pystr :=
  let n := length group in
  if Py.eqb (drop (n - 2) group) [backslash; zero] && (2 <=? n)%nat
  then take (n - 2) group
  else group.

(** [re.findall(b'"(.*?)(?:\\\\0)?"', s)]: a quote, as little text as
    possible, a backslash-zero or none, a quote. A match opens at a quote and closes
    at the next one; the dot matches no newline, so a newline before the
    closing quote ends the attempt, and the search goes on behind it.
    [inside] holds the text read since the opening quote. *)
Fixpoint findall_quoted (inside : option pystr) (s : pystr) : list pystr :=
  match s with
  | [] => []
  | c :: s' =>
      match inside with
      | None =>
          if N.eqb c quote then findall_quoted (Some []) s'
          else findall_quoted None s'
      | Some group =>
          if N.eqb c quote then strip_nul group :: findall_quoted None s'
          else if N.eqb c newline then findall_quoted None s'
          else findall_quoted (Some (group ++ [c])) s'
      end
  end.

(** ["%d%d" % (_python_version[0], _python_version[1])] *)
Definition version_digits (h : Host) : pystr :=
  lit (NilZero.string_of_int (Z.to_int (fst (python_version h))))
  ++ lit (NilZero.string_of_int (Z.to_int (snd (python_version h)))).

(** The [while binary_path:] loop: is [filename] the interpreter binary, a
    directory above it, or a [pythonXY] beside one of those. A turn that
    stays in the loop shortens [binary_path]. *)
Fixpoint binary_loop (fuel : nat) (h : Host) (filename binary_path : pystr)
    (found : bool) : bool :=
  match fuel with
  | O => found
  | S fuel' =>
      if Py.eqb binary_path [] then found
      else if Py.eqb filename binary_path then true
      else if Py.eqb binary_path (posixpath.dirname binary_path) then found
      else
        let binary_path := posixpath.dirname binary_path in
        if Py.eqb filename
             (posixpath.join binary_path (lit "python" ++ version_digits h))
        then binary_loop fuel' h filename binary_path true
        else binary_loop fuel' h filename binary_path found
  end.

(** The file argument of a [stat], [lstat] or [readlink] line. *)
Definition syscall_filename (line : pystr) : pystr :=
  Py.slice (Py.find (lit "(") line + 2) (Py.find (lit ", ") line - 1) line.

(** A [readlink] line as strace prints it for the file [p]; [rest] is
    what follows the comma, the target and the result. *)
Definition readlink_line (p rest : pystr) : pystr :=
  lit "readlink(" ++ [quote] ++ p ++ [quote] ++ lit ", " ++ rest.

(** The tests on the file argument that [continue] the line loop. *)
Definition self_reference (h : Host) (filename : pystr) : bool :=
  if Py.eqb filename (lit "/usr/bin/python3") then true
  else if existsb (Py.eqb filename)
            (map (fun version => lit "/usr/bin/python3." ++ version)
               [lit "5"; lit "6"; lit "7"; lit "8"; lit "9"])
  then true
  else
    let binary_path := python_executable h in
    binary_loop (S (length binary_path)) h filename binary_path false.

(** What one line of the trace adds to [result]. *)
Definition trace_line (h : Host) (line : pystr) : list pystr :=
  if Py.eqb line [] then []
  else if Py.contains (lit "ENOENT") line then []
  else if Py.startswith (lit "stat(") line && Py.contains (lit "S_IFDIR") line
  then []
  else if (Py.startswith (lit "lstat(") line
           || Py.startswith (lit "stat(") line
           || Py.startswith (lit "readlink(") line)
          && self_reference h (syscall_filename line)
  then []
  else map (posixpath.abspath (getcwd h)) (findall_quoted None line).

Definition is_cont (b : N) : bool := ((128 <=? b) && (b <=? 191))%N.

(** [s.decode("utf-8")], [None] for [UnicodeDecodeError]. *)
Fixpoint utf8_decode (s : pystr) : option pystr :=
  match s with
  | [] => Some []
  | b0 :: r0 =>
      if (b0 <? 128)%N then cons b0 <$> utf8_decode r0
      else if ((194 <=? b0) && (b0 <=? 223))%N then
        match r0 with
        | b1 :: r1 =>
            if is_cont b1
            then cons ((b0 - 192) * 64 + (b1 - 128))%N <$> utf8_decode r1
            else None
        | _ => None
        end
      else if ((224 <=? b0) && (b0 <=? 239))%N then
        match r0 with
        | b1 :: b2 :: r2 =>
            if is_cont b1 && is_cont b2
               && (negb (b0 =? 224)%N || (160 <=? b1)%N)
               && (negb (b0 =? 237)%N || (b1 <=? 159)%N)
            then cons ((b0 - 224) * 4096 + (b1 - 128) * 64 + (b2 - 128))%N
                   <$> utf8_decode r2
            else None
        | _ => None
        end
      else if ((240 <=? b0) && (b0 <=? 244))%N then
        match r0 with
        | b1 :: b2 :: b3 :: r3 =>
            if is_cont b1 && is_cont b2 && is_cont b3
               && (negb (b0 =? 240)%N || (144 <=? b1)%N)
               && (negb (b0 =? 244)%N || (b1 <=? 143)%N)
            then cons ((b0 - 240) * 262144 + (b1 - 128) * 4096
                       + (b2 - 128) * 64 + (b3 - 128))%N
                   <$> utf8_decode r3
            else None
        | _ => None
        end
      else None
  end.

(** [[s.decode("utf-8") for s in result]] *)
Fixpoint decode_all (result : list pystr) : outcome (list pystr) :=
  match result with
  | [] => Returned []
  | s :: rest =>
      match utf8_decode s with
      | None => Raised UnicodeDecodeError
      | Some t => rest' ← decode_all rest; Returned (t :: rest')
      end
  end.

(** The whitespace [rstrip()] removes from a [str]. *)
Definition is_space (c : N) : bool :=
  (((9 <=? c) && (c <=? 13)) || ((28 <=? c) && (c <=? 32)) || (c =? 133)
   || (c =? 160) || (c =? 5760) || ((8192 <=? c) && (c <=? 8202))
   || (c =? 8232) || (c =? 8233) || (c =? 8239) || (c =? 8287)
   || (c =? 12288))%N.

Fixpoint rstrip (s : pystr) : pystr :=
  match s with
  | [] => []
  | x :: s' =>
      match rstrip s' with
      | [] => if is_space x then [] else [x]
      | r => x :: r
      end
  end.

(** The loop over the lines of the depends.exe report; returning before
    the end of [lines] is the [break]. *)
Fixpoint depends_loop (h : Host) (path : pystr) (inside : bool)
    (result : list pystr) (lines : list pystr) : outcome (list pystr) :=
  match lines with
  | [] => Returned result
  | line :: rest =>
      if Py.contains (lit "| Module Dependency Tree |") line
      then depends_loop h path true result rest
      else if negb inside then depends_loop h path inside result rest
      else if Py.contains (lit "| Module List |") line then Returned result
      else if negb (Py.contains (lit "]") line)
      then depends_loop h path inside result rest
      else if Py.contains (lit "?") (Py.slice_to (Py.find (lit "]") line) line)
      then depends_loop h path inside result rest
      else
        let dll_filename := rstrip (Py.slice_from (Py.find (lit "]") line + 2) line) in
        let dll_filename := nt_normcase h dll_filename in
        if negb (isfile h dll_filename) then Raised AssertionError
        else if Py.eqb dll_filename (nt_normcase h (nt_abspath h path))
        then depends_loop h path inside result rest
        else depends_loop h path inside (result ++ [dll_filename]) rest
  end.

(** The command line of the tracer. *)
Definition tracer_args (dtruss : bool) (path : pystr) : list pystr :=
  if dtruss then [lit "sudo"; lit "dtruss"; lit "-t"; lit "open"; path]
  else [lit "strace"; lit "-e"; lit "file"; lit "-s4096"; path].

(** [sys.platform == "darwin" or sys.platform.startswith("freebsd")] *)
Definition uses_dtruss (h : Host) : bool :=
  Py.eqb (sys_platform h) (lit "darwin")
  || Py.startswith (lit "freebsd") (sys_platform h).

(** The checks that the tracer is installed. *)
Definition require_tracer (h : Host) : outcome unit :=
  if uses_dtruss h then
    has_dtruss ← isExecutableCommand h (lit "dtruss");
    if negb has_dtruss
    then Exited (ExitMessage "Error, needs 'dtruss' on your system to scan used libraries.")
    else
      has_sudo ← isExecutableCommand h (lit "sudo");
      if negb has_sudo
      then Exited (ExitMessage "Error, needs 'sudo' on your system to scan used libraries.")
      else Returned tt
  else
    has_strace ← isExecutableCommand h (lit "strace");
    if negb has_strace
    then Exited (ExitMessage "Error, needs 'strace' on your system to scan used libraries.")
    else Returned tt.

(** [exit_strace] and [stderr_strace] *)
Definition traced (h : Host) (path : pystr) : Z * pystr :=
  run_tracer h (tracer_args (uses_dtruss h) path).

(** The lines the loop goes through. *)
Definition trace_lines (h : Host) (path : pystr) : list pystr :=
  Py.split_unit newline (snd (traced h path)).

(** The list [result] as it is before [sorted(set(result))]. The trace
    written beside the binary and the report deleted after reading it
    leave no mark on the result and are not modelled. *)
Definition loaded_files (h : Host) (path : pystr) : outcome (list pystr) :=
  if Py.eqb (os_name h) (lit "posix") then
    require_tracer h ;;
    if negb (fst (traced h path) =? 0)
    then Exited (ExitMessage "Failed to run strace.")
    else
      let result := flat_map (trace_line h) (trace_lines h path) in
      if python3 h then decode_all result else Returned result
  else if Py.eqb (os_name h) (lit "nt") then
    depends_loop h path false [] (depends_report h path)
  else Returned [].

(** [trace_stderr] guards a print that needs a failed tracer, which has
    left the process before. *)
Definition getRuntimeTraceOfLoadedFiles (h : Host) (path : pystr)
    (trace_stderr : bool) : outcome (list pystr) :=
  result ← loaded_files h path;
  Returned (Py.sorted_set result).

End Tracer.

(** ** Python floats that hold integers

    [getTotalReferenceCount] adds integers to a [float], an IEEE 754
    double: a sum is the double nearest to the exact sum, with 53 bits of
    significand, the one with the even significand when two are as near;
    from 2^1024 on it is an infinity. Such sums hold no fraction, so a
    finite float is the integer it holds. *)

Module Double.

Inductive float : Type :=
  | Finite (value : Z)
  | Infinity (negative : bool).

(** The double nearest to the integer [n]. *)
Definition round (n : Z) : float :=
  let m := Z.abs n in
  let k := Z.log2 m - 52 in       (* bits of [m] beyond the significand *)
  if k <=? 0 then Finite n
  else
    let q := Z.shiftr m k in
    let r := Z.land m (Z.ones k) in
    let half := Z.shiftl 1 (k - 1) in
    let q := if (r <? half) || ((r =? half) && Z.even q) then q else q + 1 in
    let m := Z.shiftl q k in
    if Z.shiftl 1 1024 <=? m then Infinity (n <? 0)
    else Finite (if n <? 0 then - m else m).

(** [x + n] for a float [x] and an [int] [n]: [n] becomes the double
    nearest to it, and raises beyond the range of a double; the sum of two
    doubles is the double nearest to it. *)
Definition add_int (x : float) (n : Z) : outcome float :=
  match round n with
  | Infinity _ => Raised OverflowError
  | Finite b =>
      Returned match x with
               | Finite a => round (a + b)
               | Infinity negative => Infinity negative
               end
  end.

(** [int(x)] *)
Definition to_int (x : float) : outcome Z :=
  match x with
  | Finite value => Returned value
  | Infinity _ => Raised OverflowError
  end.

End Double.

(** ** CensusDiffer and LeakDetector: snapObjRefCntMap, checkReferenceCount *)

(** [str(n)] and ["%d" % n] for an integer. *)
Definition decimal (n : Z) : pystr := lit (NilZero.string_of_int (Z.to_int n)).

(** A live object, as far as the census looks at it. [as_str] is [str(x)],
    [None] when that raises. *)
Inductive pykind : Type :=
  | KStr (value : pystr)                                   (* type(x) is str *)
  | KStrSubclass (class_name : pystr) (as_str : option pystr)
  | KDict (has_builtins has_spec : bool)
      (name : option pystr)                                (* x["__name__"], if present *)
      (as_str : option pystr)                              (* type(x) is dict *)
  | KFloat (as_str : option pystr)                         (* type(x) is float *)
  | KCompiledFrame (f_lineno : Z) (f_code : pystr)         (* class named compiled_frame *)
  | KObject (as_str : option pystr).                       (* any other object *)

(** Which object it is: one of the two census maps of the module, or
    another one at some address. *)
Inductive identity : Type :=
  | IsM1
  | IsM2
  | IsOther (address : N).

Record pyobject : Type := {
  obj_identity : identity;
  obj_kind : pykind;
  obj_refcount : Z              (* sys.getrefcount(x) *)
}.

(** A [dict] from keys to counts, in insertion order. *)
Definition dict : Type := list (pystr * Z).

Module Dict.

Fixpoint get (k : pystr) (m : dict) : option Z :=
  match m with
  | [] => None
  | (k', v) :: m' => if Py.eqb k k' then Some v else get k m'
  end.

(** [k in m] *)
Definition contains (k : pystr) (m : dict) : bool :=
  match get k m with Some _ => true | None => false end.

(** [if k in m: m[k] += c else: m[k] = c] *)
Fixpoint add (k : pystr) (c : Z) (m : dict) : dict :=
  match m with
  | [] => [(k, c)]
  | (k', v) :: m' =>
      if Py.eqb k k' then (k', v + c) :: m' else (k', v) :: add k c m'
  end.

Definition keys (m : dict) : list pystr := map fst m.

End Dict.

(** The module globals [m1] and [m2]. *)
Record Maps : Type := { m1 : dict; m2 : dict }.

(** The interpreter the session runs in, over its states [W]. *)
Record Interp (W : Type) : Type := {
  gc_collect : W -> W;
  gc_get_objects : W -> list pyobject;
  debug_python : bool;                 (* hasattr(sys, "gettotalrefcount") *)
  sys_gettotalrefcount : W -> Z;
  exc_info_clean : W -> bool           (* sys.exc_info() == (None, None, None) *)
}.

Arguments gc_collect {W} _ _.
Arguments gc_get_objects {W} _ _.
Arguments debug_python {W} _.
Arguments sys_gettotalrefcount {W} _ _.
Arguments exc_info_clean {W} _ _.

Module Census.

Definition is_census_map (x : pyobject) : bool :=
  match obj_identity x with
  | IsM1 | IsM2 => true
  | IsOther _ => false
  end.

(** [str(x)] of an object that is not a [str] itself. *)
Definition str_of (as_str : option pystr) : outcome pystr :=
  match as_str with
  | Some s => Returned s
  | None => Raised StrError
  end.

(** The [if]/[elif] chain of [snapObjRefCntMap] that computes the key [k]. *)
Definition key_of (x : pyobject) : outcome pystr :=
  match obj_kind x with
  | KStrSubclass class_name as_str =>
      s ← str_of as_str; Returned (lit "str_overload_" ++ class_name ++ s)
  | KDict has_builtins has_spec name as_str =>
      if has_builtins then
        match name with
        | Some n => Returned (lit "<module dict " ++ n ++ lit ">")
        | None => Raised KeyError
        end
      else
        match has_spec, name with
        | true, Some n => Returned (lit "<module dict " ++ n ++ lit ">")
        | _, _ => str_of as_str
        end
  | KCompiledFrame f_lineno f_code =>
      Returned (lit "<compiled_frame at xxx, line " ++ decimal f_lineno
                ++ lit " code " ++ f_code)
  | KStr value => Returned value
  | KFloat as_str | KObject as_str => str_of as_str
  end.

(** An object the snapshot counts whatever the maps hold: not a census
    map, and no [str] that could be a key already. *)
Definition counted (x : pyobject) : bool :=
  negb (is_census_map x)
  && match obj_kind x with KStr _ => false | _ => true end.

(** An object whose key the snapshot can compute. *)
Definition keyed (x : pyobject) : bool :=
  match key_of x with Returned _ => true | _ => false end.

(** Live objects on which a snapshot neither raises nor comes out empty:
    every object that is not a census map has a key, and one of them is
    counted for sure. *)
Definition census_ok (objects : list pyobject) : bool :=
  forallb (fun x => is_census_map x || keyed x) objects
  && existsb counted objects.

(** The map the snapshot fills. *)
Definition current (before : bool) (maps : Maps) : dict :=
  if before then m1 maps else m2 maps.

Definition set_current (before : bool) (m : dict) (maps : Maps) : Maps :=
  if before then {| m1 := m; m2 := m2 maps |}
  else {| m1 := m1 maps; m2 := m |}.

(** The body of [for x in gc.get_objects()]. *)
Definition snap_step (before : bool) (maps : Maps) (x : pyobject)
    : outcome Maps :=
  if is_census_map x then Returned maps
  else if match obj_kind x with
          | KStr value =>
              Dict.contains value (m1 maps) || Dict.contains value (m2 maps)
          | _ => false
          end
  then Returned maps
  else
    k ← key_of x;
    let c := obj_refcount x in
    Returned (set_current before (Dict.add k c (current before maps)) maps).

Fixpoint snap_loop (before : bool) (maps : Maps) (objects : list pyobject)
    : outcome Maps :=
  match objects with
  | [] => Returned maps
  | x :: objects' =>
      maps ← snap_step before maps x;
      snap_loop before maps objects'
  end.

Section WithInterp.

Context {W : Type} (interp : Interp W).

(** [cleanObjRefCntMaps()]; the warm-up loop catches what [str] raises
    and changes nothing. *)
Definition cleanObjRefCntMaps (maps : Maps) : Maps :=
  {| m1 := []; m2 := [] |}.

Definition snapObjRefCntMap (before : bool) (w : W) (maps : Maps)
    : outcome (W * Maps) :=
  let maps := set_current before [] maps in
  let w := gc_collect interp w in
  maps ← snap_loop before maps (gc_get_objects interp w);
  Returned (w, maps).

Definition is_float (obj : pyobject) : bool :=
  match obj_kind obj with KFloat _ => true | _ => false end.

(** The first loop of [getTotalReferenceCount]: the reference counts of
    the objects that are no floats, added to the float [result]. *)
Fixpoint float_pass (result : Double.float) (all_objects : list pyobject)
    : outcome Double.float :=
  match all_objects with
  | [] => Returned result
  | obj :: all_objects' =>
      if is_float obj then float_pass result all_objects'
      else
        result ← Double.add_int result (obj_refcount obj);
        float_pass result all_objects'
  end.

(** The second loop: the reference counts of the floats, added to the
    [int] [result]. *)
Definition int_pass (result : Z) (all_objects : list pyobject) : Z :=
  fold_left
    (fun result obj => if is_float obj then result + obj_refcount obj else result)
    all_objects result.

Definition getTotalReferenceCount (w : W) : outcome (Z * W) :=
  if debug_python interp then
    let w := gc_collect interp w in
    Returned (sys_gettotalrefcount interp w, w)
  else
    let w := gc_collect interp w in
    let all_objects := gc_get_objects interp w in
    result ← float_pass (Double.Finite 0) all_objects;
    result ← Double.to_int result;
    Returned (int_pass result all_objects, w).

End WithInterp.

End Census.

Module LeakDetector.

Import Census.

(** The local variables of [checkReferenceCount] and what it touches:
    the interpreter state, the census maps, and the rounds it has run, each
    with the two totals it measured. *)
Record State (W : Type) : Type := {
  world : W;
  census : Maps;
  ref_count1 : Z;
  ref_count2 : Z;
  result : bool;
  rounds : list (Z * Z)
}.

Arguments world {W} _.
Arguments census {W} _.
Arguments ref_count1 {W} _.
Arguments ref_count2 {W} _.
Arguments result {W} _.
Arguments rounds {W} _.

(** What [checkReferenceCount] hands back: the returned flag, the texts
    it printed, one per call of [print], and the final state. *)
Record Verdict (W : Type) : Type := {
  returned : bool;
  printed : list pystr;
  final : State W
}.

Arguments returned {W} _.
Arguments printed {W} _.
Arguments final {W} _.

Definition stars : pystr := Py.repeat_unit 42%N 80.   (* "*" * 80 *)

(** The body of [for key in m1]; [m1_key] is [m1[key]], the count beside
    the key. *)
Definition report_m1_key (m1 m2 : dict) (entry : pystr * Z) : list pystr :=
  let '(key, m1_key) := entry in
  match Dict.get key m2 with
  | None => [stars; lit "extra: " ++ decimal m1_key ++ lit " " ++ key]
  | Some m2_key =>
      if negb (m1_key =? m2_key)
      then [stars; decimal m1_key ++ lit " -> " ++ decimal m2_key ++ lit " " ++ key]
      else []
  end.

(** The body of [for key in m2]; [m2_key] is [m2[key]]. *)
Definition report_m2_key (m1 m2 : dict) (entry : pystr * Z) : list pystr :=
  let '(key, m2_key) := entry in
  if negb (Dict.contains key m1)
  then [stars; lit "missing: " ++ decimal m2_key ++ lit " " ++ key]
  else [].

(** The lines below "REPORT of differences:". *)
Definition report_differences (m1 m2 : dict) : list pystr :=
  flat_map (report_m1_key m1 m2) m1 ++ flat_map (report_m2_key m1 m2) m2.

Section WithProbe.

(** [checked_function] is the probe, a call that returns and changes the
    interpreter state; [name] is its [__name__]. What the probe itself
    prints is switched off for the session and is not part of [printed]. *)
Context {W : Type} (interp : Interp W).
Context (checked_function : W -> W) (name : pystr).
Context (max_rounds : Z) (explain : bool).

(** One turn of [for count in range(max_rounds)]; [inl] is the [break]. *)
Definition round (count : Z) (st : State W) : outcome (State W + State W) :=
  '(w, maps) ← (if explain && (count =? max_rounds - 1)
                then snapObjRefCntMap interp true (world st) (census st)
                else Returned (world st, census st));
  '(ref_count1, w) ← getTotalReferenceCount interp w;
  let w := checked_function w in
  '(ref_count2, w) ← getTotalReferenceCount interp w;
  let rounds := rounds st ++ [(ref_count1, ref_count2)] in
  if negb (exc_info_clean interp w) then Raised AssertionError
  else if ref_count1 =? ref_count2 then
    Returned (inl {| world := w; census := maps; ref_count1 := ref_count1;
                     ref_count2 := ref_count2; result := true;
                     rounds := rounds |})
  else
    '(w, maps) ← (if explain && (count =? max_rounds - 1)
                  then snapObjRefCntMap interp false w maps
                  else Returned (w, maps));
    Returned (inr {| world := w; census := maps; ref_count1 := ref_count1;
                     ref_count2 := ref_count2; result := result st;
                     rounds := rounds |}).

(** The loop, with [todo] turns left and [count] the next index. *)
Fixpoint loop (todo : nat) (count : Z) (st : State W) : outcome (State W) :=
  match todo with
  | O => Returned st
  | S todo' =>
      next ← round count st;
      match next with
      | inl st' => Returned st'
      | inr st' => loop todo' (count + 1) st'
      end
  end.

Definition checkReferenceCount (w : W) (maps : Maps) : outcome (Verdict W) :=
  if negb (exc_info_clean interp w) then Raised AssertionError
  else
    let out := [name ++ lit ": "] in
    let maps := if explain then cleanObjRefCntMaps maps else maps in
    if negb (max_rounds >? 0) then Raised AssertionError
    else
      st ← loop (Z.to_nat max_rounds) 0
             {| world := w; census := maps; ref_count1 := 17;
                ref_count2 := 17; result := false; rounds := [] |};
      out ← (if result st then Returned (out ++ [lit "PASSED"])
             else
               let out :=
                 out ++ [lit "FAILED " ++ decimal (ref_count1 st) ++ lit " "
                         ++ decimal (ref_count2 st) ++ lit " leaked "
                         ++ decimal (ref_count2 st - ref_count1 st)] in
               if explain then
                 let out := out ++ [lit "REPORT of differences:"] in
                 if bool_decide (m1 (census st) = []) then Raised AssertionError
                 else if bool_decide (m2 (census st) = []) then Raised AssertionError
                 else Returned (out ++ report_differences (m1 (census st)) (m2 (census st)))
               else Returned out);
      if negb (exc_info_clean interp (world st)) then Raised AssertionError
      else
        let w := gc_collect interp (world st) in
        Returned {| returned := result st; printed := out;
                    final := {| world := w; census := census st;
                                ref_count1 := ref_count1 st;
                                ref_count2 := ref_count2 st;
                                result := result st;
                                rounds := rounds st |} |}.

End WithProbe.

End LeakDetector.

(** ** ComparisonRunner: compareWithCPython *)

Module Comparison.

(** How [subprocess.call(command)] ends. *)
Inductive call_result : Type :=
  | ExitCode (status : Z)
  | KeyboardInterrupt
  | CallRaises (e : exception).

(** What [_removeCPythonTestSuiteDir] finds at "@test". *)
Record TestDir : Type := {
  test_isdir : bool;          (* os.path.isdir("@test") *)
  test_isfile : bool;         (* os.path.isfile("@test") *)
  removal_fails : bool;       (* removeDirectory or os.unlink raises OSError *)
  exists_after : bool         (* os.path.exists("@test") in the handler *)
}.

(** The search mode, an object of nuitka/tools/testing/SearchModes.py, by
    the three methods the runner calls. *)
Record SearchMode : Type := {
  getExtraFlags : option pystr -> pystr -> list pystr;
  abortOnFinding : option pystr -> pystr -> bool;
  onErrorDetected : pystr -> outcome unit
}.

(** What the runner reads from its surroundings, one answer per call. *)
Record Env : Type := {
  os_name_nt : bool;                                  (* os.name == "nt" *)
  os_path_join : pystr -> pystr -> pystr;
  sys_executable : pystr;
  test_installed : bool;        (* os.getenv("NUITKA_TEST_INSTALLED", "") == "1" *)
  runner_exists : bool;         (* os.path.exists(compare_with_cpython) *)
  convertUsing2to3 : pystr -> pystr * bool;
  subprocess_call : list pystr -> call_result;
  test_dir_before : TestDir;
  test_dir_after : TestDir
}.

(** The calls that leave the function, in the order they are made. *)
Inductive event : Type :=
  | RemoveDirectory (path : pystr)
  | Unlink (path : pystr)
  | System (command : pystr)
  | Call (command : list pystr)
  | GetExtraFlags (dirname : option pystr) (filename : pystr)
  | AbortOnFinding (dirname : option pystr) (filename : pystr)
  | OnError (dirname : option pystr) (filename : pystr)
  | OnErrorDetected (message : pystr)
  | StderrWrite (text : pystr).

#[global] Instance event_eq_dec : EqDecision event.
Proof. solve_decision. Defined.


(** A computation that logs its calls: the log it adds and how it ends. *)
Definition run (A : Type) : Type := list event * outcome A.

Definition run_ret {A : Type} (a : A) : run A := ([], Returned a).

Definition run_bind {A B : Type} (m : run A) (k : A -> run B) : run B :=
  match m with
  | (log, Returned a) => let '(log', r) := k a in (log ++ log', r)
  | (log, Raised e) => (log, Raised e)
  | (log, Exited arg) => (log, Exited arg)
  end.

Definition emit (e : event) : run unit := ([e], Returned tt).

Definition lift {A : Type} (o : outcome A) : run A := ([], o).

Notation "x <~ m ;; k" := (run_bind m (fun x => k))
  (at level 100, m at next level, right associativity).
Notation "m ;;; k" := (run_bind m (fun _ => k))
  (at level 100, right associativity).

Definition at_test : pystr := lit "@test".

(** [_removeCPythonTestSuiteDir()] *)
Definition removeCPythonTestSuiteDir (nt : bool) (t : TestDir) : run unit :=
  let attempt : run bool :=           (* did the [try] body raise OSError *)
    if test_isdir t then
      emit (RemoveDirectory at_test) ;;; run_ret (removal_fails t)
    else if test_isfile t then
      emit (Unlink at_test) ;;; run_ret (removal_fails t)
    else run_ret false in
  failed <~ attempt ;;
  if failed then
    (if nt then emit (System (lit "rmdir /S /Q @test")) else run_ret tt) ;;;
    if exists_after t then lift (Raised OSError) else run_ret tt
  else run_ret tt.


(** [try: result = subprocess.call(command)
     except KeyboardInterrupt: result = 2] *)
Definition wait (ends : call_result) : run Z :=
  match ends with
  | ExitCode status => run_ret status
  | KeyboardInterrupt => run_ret 2
  | CallRaises e => lift (Raised e)
  end.




End Comparison.

(** ** Sample runs *)

Module Examples.

Import Tracer.

(** Text between double quotes. *)
Definition quoted (s : pystr) : pystr := [quote] ++ s ++ [quote].

Definition sample_trace : pystr :=
  Py.join [newline]
    [ lit "stat(" ++ quoted (lit "/usr/lib")
        ++ lit ", {st_mode=S_IFDIR|0755, st_size=4096}) = 0";
      lit "open(" ++ quoted (lit "/nope")
        ++ lit ", O_RDONLY) = -1 ENOENT (No such file or directory)";
      readlink_line (lit "/proc/self/exe")
        (quoted (lit "/opt/app/prog") ++ lit ", 4096) = 13");
      lit "open(" ++ quoted (lit "/opt/app/data.bin") ++ lit ", O_RDONLY) = 3";
      lit "lstat(" ++ quoted (lit "/usr/bin/python3.8") ++ lit ", {st_mode=S_IFREG}) = 0";
      lit "open(" ++ quoted (lit "data/../data.bin") ++ lit ", O_RDONLY) = 4";
      lit "open(" ++ quoted (lit "/opt/app/data.bin") ++ lit ", O_RDONLY) = 5" ].

(** A Linux machine with strace, running Python 3.8 in /opt/app. *)
Definition linux_host : Host := {|
  os_name := lit "posix";
  sys_platform := lit "linux";
  python3 := true;
  environ_PATH := Some (lit "/usr/local/bin:/usr/bin");
  isfile := fun p => Py.eqb p (lit "/usr/bin/strace");
  getcwd := lit "/opt/app";
  python_executable := lit "/usr/bin/python3.8";
  python_version := (3, 8);
  run_tracer := fun _ => (0, sample_trace);
  depends_report := fun _ => [];
  nt_join := fun a b => a ++ [92%N] ++ b;
  nt_normcase := fun a => a;
  nt_abspath := fun a => a
|}.

(** An interpreter with a debug build's total count as its whole state. *)
Definition counter : Interp Z := {|
  gc_collect := fun w => w;
  gc_get_objects := fun _ => [];
  debug_python := true;
  sys_gettotalrefcount := fun w => w;
  exc_info_clean := fun _ => true
|}.

(** A probe that leaves the count as it is, and one that keeps a
    reference more with every call. *)
Definition no_leak (w : Z) : Z := w.
Definition leak_one (w : Z) : Z := w + 1.

Definition census_m1 : pyobject :=
  {| obj_identity := IsM1; obj_kind := KDict false false None None;
     obj_refcount := 2 |}.
Definition census_m2 : pyobject :=
  {| obj_identity := IsM2; obj_kind := KDict false false None None;
     obj_refcount := 2 |}.
Definition module_main : pyobject :=
  {| obj_identity := IsOther 1;
     obj_kind := KDict true true (Some (lit "__main__")) None;
     obj_refcount := 5 |}.
Definition object_a : pyobject :=
  {| obj_identity := IsOther 2; obj_kind := KObject (Some (lit "a"));
     obj_refcount := 2 |}.
Definition object_leak : pyobject :=
  {| obj_identity := IsOther 3; obj_kind := KObject (Some (lit "leak"));
     obj_refcount := 3 |}.

(** An interpreter whose state is the list of its live objects. *)
Definition heap : Interp (list pyobject) := {|
  gc_collect := fun w => w;
  gc_get_objects := fun w => w;
  debug_python := false;
  sys_gettotalrefcount := fun _ => 0;
  exc_info_clean := fun _ => true
|}.

Definition heap0 : list pyobject :=
  [census_m1; census_m2; module_main; object_a].

(** A probe that lets go of the object "a" and keeps a new object "leak". *)
Definition swap_a_for_leak (w : list pyobject) : list pyobject :=
  List.filter
    (fun x => match obj_identity x with IsOther 2 => false | _ => true end) w
  ++ [object_leak].

(** An interpreter whose state is the number of references to the object
    "leak", which lives next to the module and the census maps. *)
Definition leaking : Interp Z := {|
  gc_collect := fun w => w;
  gc_get_objects := fun w =>
    [ census_m1; census_m2; module_main;
      {| obj_identity := IsOther 3; obj_kind := KObject (Some (lit "leak"));
         obj_refcount := w |} ];
  debug_python := false;
  sys_gettotalrefcount := fun _ => 0;
  exc_info_clean := fun _ => true
|}.

(** A probe that keeps one more reference to "leak" with every call. *)
Definition retain_one (w : Z) : Z := w + 1.

Definition no_maps : Maps := {| m1 := []; m2 := [] |}.

Import Comparison.




End Examples.

(** ** Test selection by file name: decideFilenameVersionSkip, decideNeeds2to3 *)

Module Versions.

(** [s.endswith(suffix)] *)
Definition endswith (suffix s : pystr) : bool :=
  Py.startswith (reverse suffix) (reverse s).

(** [s.endswith((s1, s2, ...))] *)
Definition endswith_any (suffixes : list pystr) (s : pystr) : bool :=
  existsb (fun suffix => endswith suffix s) suffixes.

(** [a < b] on tuples of integers: the first place that differs decides,
    and a tuple is below every longer one that starts with it. *)
Fixpoint tuple_ltb (a b : list Z) : bool :=
  match a, b with
  | _, [] => false
  | [], _ :: _ => true
  | x :: a', y :: b' => (x <? y) || ((x =? y) && tuple_ltb a' b')
  end.

(** [a > b] and [a >= b] *)
Definition tuple_gtb (a b : list Z) : bool := tuple_ltb b a.
Definition tuple_geb (a b : list Z) : bool := negb (tuple_ltb a b).

(** [if filename.endswith(".j2"): filename = filename[:-3]] *)
Definition strip_j2 (filename : pystr) : pystr :=
  if endswith (lit ".j2") filename then Py.slice_to (-3) filename else filename.

(** [decideFilenameVersionSkip(filename)] under [_python_version]; [true]
    is the answer to run the file. *)
Definition decideFilenameVersionSkip (python_version : list Z)
    (filename : pystr) : bool :=
  if Py.startswith (lit "run_") filename then false
  else
    let filename := strip_j2 filename in
    if endswith (lit "27.py") filename && tuple_ltb python_version [2; 7]
    then false
    else if endswith (lit "_2.py") filename && tuple_gtb python_version [3]
    then false
    else if endswith (lit "_37.py") filename && tuple_gtb python_version [3; 8]
    then false
    else if endswith (lit "32.py") filename && tuple_ltb python_version [3; 2]
    then false
    else if endswith (lit "33.py") filename && tuple_ltb python_version [3; 3]
    then false
    else if endswith (lit "34.py") filename && tuple_ltb python_version [3; 4]
    then false
    else if endswith (lit "35.py") filename && tuple_ltb python_version [3; 5]
    then false
    else if endswith (lit "36.py") filename && tuple_ltb python_version [3; 6]
    then false
    else if endswith (lit "37.py") filename && tuple_ltb python_version [3; 7]
    then false
    else if endswith (lit "38.py") filename && tuple_ltb python_version [3; 8]
    then false
    else if endswith (lit "39.py") filename && tuple_ltb python_version [3; 9]
    then false
    else true.

(** [decideNeeds2to3(filename)] *)
Definition decideNeeds2to3 (python_version : list Z) (filename : pystr) : bool :=
  tuple_geb python_version [3]
  && negb (endswith_any
             [ lit "32.py"; lit "33.py"; lit "34.py"; lit "35.py"; lit "36.py";
               lit "37.py"; lit "38.py"; lit "39.py" ]
             filename).

End Versions.

(** ** checkCompilesNotWithCPython *)

Module CompileCheck.

Import Comparison.

(** [python_executable] is the global [_python_executable]. *)
Definition checkCompilesNotWithCPython (env : Env) (python_executable : pystr)
    (dirname : option pystr) (filename : pystr) (search_mode : SearchMode)
    : run unit :=
  let path :=
    match dirname with
    | None => filename
    | Some d => os_path_join env d filename
    end in
  let command := [python_executable; lit "-mcompileall"; path] in
  emit (Call command) ;;;
  result <~ wait (subprocess_call env command) ;;
  if negb (result =? 1) && negb (result =? 2) then
    emit (AbortOnFinding dirname filename) ;;;
    if abortOnFinding search_mode dirname filename then
      let message := lit "Error exit! " ++ decimal result in
      emit (OnErrorDetected message) ;;;
      lift (onErrorDetected search_mode message)
    else run_ret tt
  else run_ret tt.

End CompileCheck.

(** ** indentedCode *)

Module Indent.

(** [" " * count] *)
Definition spaces (count : Z) : pystr := Py.repeat_unit 32%N (Z.to_nat count).

(** [" " * count + line if line else ""] *)
Definition indent_line (count : Z) (line : pystr) : pystr :=
  if negb (Py.eqb line []) then spaces count ++ line else [].

Definition indentedCode (codes : list pystr) (count : Z) : pystr :=
  Py.join [Tracer.newline] (map (indent_line count) codes).

End Indent.

(** ** The process environment: addExtendedExtraOptions,
    withExtendedExtraOptions, addToPythonPath, withPythonPathChange *)

Module Environ.

Import posixpath.

(** [os.environ] *)
Abbreviation environ := (gmap pystr pystr).

(** What the functions on the environment, and the bodies of their [with]
    statements, can raise: an exception of the kinds above, or one of
    these. *)
Inductive error : Type :=
  | TypeError
  | ValueError
  | UnicodeEncodeError
  | UnboundLocalError
  | Builtin (e : exception).

(** How a run on the environment ends. *)
Inductive completion (A : Type) : Type :=
  | Done (a : A)
  | Fails (e : error).

Arguments Done {A} a.
Arguments Fails {A} e.

(** A run on the environment: the environment it leaves, and how it
    ends. *)
Definition action (A : Type) : Type := environ -> environ * completion A.

Definition NUITKA_EXTRA_OPTIONS : pystr := lit "NUITKA_EXTRA_OPTIONS".
Definition PYTHONPATH : pystr := lit "PYTHONPATH".

(** [os.pathsep], on POSIX, and [" "] *)
Definition pathsep : N := 58%N.
Definition space : pystr := [32%N].

(** The argument [python_path]: [None], a string, or a list or tuple of
    strings. *)
Inductive path_arg : Type :=
  | PathNone
  | PathStr (s : pystr)
  | PathList (l : list pystr).

(** [if python_path:] *)
Definition truthy (python_path : path_arg) : bool :=
  match python_path with
  | PathNone => false
  | PathStr s => negb (Py.eqb s [])
  | PathList l => negb (bool_decide (l = []))
  end.

(** One turn of [for arg in args] in [addExtendedExtraOptions]. *)
Definition extend (value : option pystr) (arg : pystr) : option pystr :=
  match value with
  | None => Some arg
  | Some v => Some (v ++ space ++ arg)
  end.

Section WithOs.

(** What [os.environ[key] = value] raises for a string [value], if
    anything: a [ValueError] for an embedded null, a [UnicodeEncodeError]
    for what the file system encoding cannot take. *)
Variable setitem_check : pystr -> option error.

(** [os.getcwd()] *)
Variable cwd : pystr.

(** [os.environ[key] = value]; [value] is [None] where the source lets it
    be. *)
Definition setitem (key : pystr) (value : option pystr) : action unit :=
  fun env =>
    match value with
    | None => (env, Fails TypeError)
    | Some v =>
        match setitem_check v with
        | Some e => (env, Fails e)
        | None => (<[key := v]> env, Done tt)
        end
    end.

(** [del os.environ[key]] *)
Definition delitem (key : pystr) : action unit :=
  fun env =>
    match env !! key with
    | Some _ => (delete key env, Done tt)
    | None => (env, Fails (Builtin KeyError))
    end.

Definition addExtendedExtraOptions (args : list pystr)
    : action (option pystr) :=
  fun env =>
    let old_value := env !! NUITKA_EXTRA_OPTIONS in
    let value := fold_left extend args old_value in
    match setitem NUITKA_EXTRA_OPTIONS value env with
    | (env, Done _) => (env, Done old_value)
    | (env, Fails e) => (env, Fails e)
    end.

(** [with withExtendedExtraOptions(args): body]. What [body] raises
    passes through the [yield], and the statements after it do not run. *)
Definition withExtendedExtraOptions {A : Type} (args : list pystr)
    (body : action A) : action A :=
  fun env =>
    if bool_decide (args = []) then (env, Fails (Builtin AssertionError))
    else
      match addExtendedExtraOptions args env with
      | (env, Fails e) => (env, Fails e)
      | (env, Done old_value) =>
          match body env with
          | (env, Fails e) => (env, Fails e)
          | (env, Done a) =>
              match
                match old_value with
                | None => delitem NUITKA_EXTRA_OPTIONS env
                | Some v => setitem NUITKA_EXTRA_OPTIONS (Some v) env
                end
              with
              | (env, Fails e) => (env, Fails e)
              | (env, Done _) => (env, Done a)
              end
          end
      end.

Definition addToPythonPath (python_path : path_arg) (in_front : bool)
    : action unit :=
  fun env =>
    let python_path :=
      match python_path with
      | PathList l => PathStr (Py.join [pathsep] l)
      | _ => python_path
      end in
    if truthy python_path then
      let python_path :=
        match python_path with PathStr s => s | _ => [] end in
      match env !! PYTHONPATH with
      | Some old =>
          if in_front then
            setitem PYTHONPATH (Some (python_path ++ [pathsep] ++ old)) env
          else
            setitem PYTHONPATH (Some (old ++ [pathsep] ++ python_path)) env
      | None => setitem PYTHONPATH (Some python_path) env
      end
    else (env, Done tt).

(** The first statements under [if python_path:] in
    [withPythonPathChange]: the elements of the path, made absolute and
    normalized, and joined again. *)
Definition normalized_path (python_path : path_arg) : pystr :=
  let python_path :=
    match python_path with
    | PathList l => l
    | PathStr s => Py.split_unit pathsep s
    | PathNone => []
    end in
  let python_path :=
    map (fun element => normpath (abspath cwd element)) python_path in
  Py.join [pathsep] python_path.

(** The statements of [withPythonPathChange] before the [yield]: they
    leave [python_path] as they rebound it and [old_path], [None] while it
    is not bound. *)
Definition enter_path_change (python_path : path_arg)
    : action (path_arg * option (option pystr)) :=
  fun env =>
    if truthy python_path then
      let python_path := normalized_path python_path in
      match env !! PYTHONPATH with
      | Some old =>
          match
            setitem PYTHONPATH (Some (old ++ [pathsep] ++ python_path)) env
          with
          | (env, Fails e) => (env, Fails e)
          | (env, Done _) => (env, Done (PathStr python_path, Some (Some old)))
          end
      | None =>
          match setitem PYTHONPATH (Some python_path) env with
          | (env, Fails e) => (env, Fails e)
          | (env, Done _) => (env, Done (PathStr python_path, Some None))
          end
      end
    else (env, Done (python_path, None)).

(** The statements after the [yield]. *)
Definition leave_path_change (python_path : path_arg)
    (old_path : option (option pystr)) : action unit :=
  fun env =>
    if truthy python_path then
      match old_path with
      | None => (env, Fails UnboundLocalError)
      | Some None => delitem PYTHONPATH env
      | Some (Some old) => setitem PYTHONPATH (Some old) env
      end
    else (env, Done tt).

(** [with withPythonPathChange(python_path): body] *)
Definition withPythonPathChange {A : Type} (python_path : path_arg)
    (body : action A) : action A :=
  fun env =>
    match enter_path_change python_path env with
    | (env, Fails e) => (env, Fails e)
    | (env, Done (python_path, old_path)) =>
        match body env with
        | (env, Fails e) => (env, Fails e)
        | (env, Done a) =>
            match leave_path_change python_path old_path env with
            | (env, Fails e) => (env, Fails e)
            | (env, Done _) => (env, Done a)
            end
        end
    end.

End WithOs.

End Environ.

(** ** scanDirectoryForTestCases *)

Module Scan.

Import Versions.

(** The condition of the list comprehension over [os.listdir(dirname)]. *)
Definition selected (filenames : list pystr) (filename : pystr) : bool :=
  (endswith (lit ".py") filename
   && negb (bool_decide (filename ++ lit ".j2" ∈ filenames)))
  || endswith (lit ".j2") filename.

(** What the generator does, in order: it writes a rendered template to a
    file, it yields a file name. *)
Inductive step : Type :=
  | WriteFile (filename content : pystr)
  | Yield (filename : pystr).

(** The file names a run yields, in order. *)
Definition yields (log : list step) : list pystr :=
  omap (fun e =>
          match e with
          | Yield filename => Some filename
          | WriteFile _ _ => None
          end) log.

Definition header : pystr :=
  lit "'''Automatically generated test, not part of releases or git." ++ [10; 10]%N
  ++ lit "'''" ++ [10%N].

Section WithDirectory.

(** [_python_version] *)
Variable python_version : list Z.

(** [os.listdir(dirname)] *)
Variable os_listdir : outcome (list pystr).

(** [template_context is not None] *)
Variable has_context : bool.

(** The code of a template: what loading Jinja2, [env.get_template] and
    [template.render] give for its file name, or raise. *)
Variable render : pystr -> outcome pystr.

(** What opening and writing a file raises, if anything. *)
Variable write_error : pystr -> pystr -> option exception.

(** The loop [for filename in sorted(filenames)], run until the generator
    is exhausted or raises. *)
Fixpoint scan_loop (filenames : list pystr) : list step * outcome unit :=
  match filenames with
  | [] => ([], Returned tt)
  | filename :: filenames' =>
      if negb (decideFilenameVersionSkip python_version filename)
      then scan_loop filenames'
      else if endswith (lit ".j2") filename then
        if negb has_context then ([], Raised AssertionError)
        else
          match render filename with
          | Returned code =>
              let filename := Py.slice_to (-3) filename in
              match write_error filename (header ++ code) with
              | Some e => ([], Raised e)
              | None =>
                  let (log, out) := scan_loop filenames' in
                  (WriteFile filename (header ++ code) :: Yield filename :: log, out)
              end
          | Raised e => ([], Raised e)
          | Exited arg => ([], Exited arg)
          end
      else
        let (log, out) := scan_loop filenames' in
        (Yield filename :: log, out)
  end.

Definition scanDirectoryForTestCases : list step * outcome unit :=
  match os_listdir with
  | Returned filenames =>
      let filenames := List.filter (selected filenames) filenames in
      scan_loop (merge_sort Py.le filenames)
  | Raised e => ([], Raised e)
  | Exited arg => ([], Exited arg)
  end.

End WithDirectory.

End Scan.

(** ** More sample runs *)

Module Samples.

Import Tracer Comparison Examples.

(** A Windows machine on which depends.exe reports two modules for every
    binary: the binary itself and a system library. Names are kept in
    lower case, so [normcase] changes nothing. *)
Definition windows_host : Host := {|
  os_name := lit "nt";
  sys_platform := lit "win32";
  python3 := true;
  environ_PATH := Some (lit "c:\windows\system32");
  isfile := fun p => Py.startswith (lit "c:\") p;
  getcwd := lit "c:\app";
  python_executable := lit "c:\python38\python.exe";
  python_version := (3, 8);
  run_tracer := fun _ => (0, []);
  depends_report := fun path =>
    [ lit "***| Module Dependency Tree |***";
      lit "[  6] " ++ path;
      lit "     [ ^6] c:\windows\system32\kernel32.dll";
      lit "     [? 6] api-ms-win-core-missing.dll";
      lit "***| Module List |***";
      lit "[  6] c:\windows\system32\ntdll.dll" ];
  nt_join := fun a b => a ++ [92%N] ++ b;
  nt_normcase := fun a => a;
  nt_abspath := fun a => a
|}.






(** A debug build in which the object "leak" lives next to the module and
    the census maps; the state is the number of references to "leak". *)
Definition leaking_debug : Interp Z := {|
  gc_collect := fun w => w;
  gc_get_objects := gc_get_objects leaking;
  debug_python := true;
  sys_gettotalrefcount := fun w => 9 + w;
  exc_info_clean := fun _ => true
|}.

(** A debug build with the total count as its state, in which an
    exception is pending whenever the count is above 100: there a probe
    that keeps a reference leaves an exception behind. *)
Definition haunted : Interp Z := {|
  gc_collect := fun w => w;
  gc_get_objects := fun _ => [];
  debug_python := true;
  sys_gettotalrefcount := fun w => w;
  exc_info_clean := fun w => w <=? 100
|}.

End Samples.

(** * Properties *)

Import posixpath Auditor Tracer Census LeakDetector Comparison Examples.
Import Samples.

(** ** Strings *)

Section PyFacts.

Implicit Types s p : pystr.

Lemma eqb_true_iff s p : Py.eqb s p = true <-> s = p.
Proof. unfold Py.eqb. apply bool_decide_eq_true. Qed.

Lemma eqb_false_iff s p : Py.eqb s p = false <-> s <> p.
Proof. unfold Py.eqb. apply bool_decide_eq_false. Qed.

Lemma eqb_refl s : Py.eqb s s = true.
Proof. by apply eqb_true_iff. Qed.

Lemma startswith_nil s : Py.startswith [] s = true.
Proof. by destruct s. Qed.

Lemma startswith_prefix p s : Py.startswith p s = true <-> p `prefix_of` s.
Proof.
  revert s. induction p as [|c p IH]; intros s.
  - rewrite startswith_nil. split; [intros _; apply prefix_nil | done].
  - destruct s as [|d s]; simpl.
    + split; [done | intros H; by apply prefix_nil_not in H].
    + rewrite andb_true_iff, N.eqb_eq, IH. split.
      * intros [-> H]. by apply prefix_cons.
      * intros H. split; [by apply prefix_cons_inv_1 in H | by apply prefix_cons_inv_2 in H].
Qed.

Lemma startswith_app p s : Py.startswith p (p ++ s) = true.
Proof. apply startswith_prefix. by exists s. Qed.

Lemma rstrip_unit_prefix c s : Py.rstrip_unit c s `prefix_of` s.
Proof.
  induction s as [|x s IH]; simpl; [done|].
  destruct (Py.rstrip_unit c s) as [|y r] eqn:E.
  - destruct (N.eqb x c); [apply prefix_nil | apply prefix_cons, prefix_nil].
  - by apply prefix_cons.
Qed.

End PyFacts.

(** ** posixpath *)

Section PathFacts.

Lemma dirname_prefix p : dirname p `prefix_of` p.
Proof.
  unfold dirname, Py.slice_to.
  set (head := take _ p).
  assert (head `prefix_of` p) by apply prefix_take.
  destruct (_ && _); [|done].
  etrans; [apply rstrip_unit_prefix | done].
Qed.

Lemma dirname_shorter p : dirname p <> p -> (length (dirname p) < length p)%nat.
Proof.
  intros Hne. pose proof (dirname_prefix p) as Hp.
  pose proof (prefix_length _ _ Hp).
  destruct (decide (length (dirname p) = length p)) as [E|]; [|lia].
  destruct Hne. apply prefix_length_eq; [done | lia].
Qed.

(** The [k]-th directory above [p]. *)
Lemma iter_dirname_fixed k p : dirname p = p -> Nat.iter k dirname p = p.
Proof. intros E. induction k as [|k IH]; simpl; [done | by rewrite IH]. Qed.

Lemma iter_dirname_succ k p :
  Nat.iter (S k) dirname p = Nat.iter k dirname (dirname p).
Proof. induction k as [|k IH]; simpl in *; [done | by rewrite IH]. Qed.

End PathFacts.

(** ** AccessAuditor *)

Arguments Auditor.exempt : simpl never.
Arguments Auditor.normalize : simpl never.
Arguments posixpath.dirname : simpl never.
Arguments lit : simpl never.

Section AuditorFacts.

Implicit Types q entry : pystr.

Lemma ancestor_loop_true fuel q entry : ancestor_loop fuel q entry true = true.
Proof.
  revert entry. induction fuel as [|fuel IH]; intros entry; simpl; [done|].
  repeat case_match; auto.
Qed.

Lemma ancestor_loop_sound fuel q entry ok :
  ancestor_loop fuel q entry ok = true ->
  ok = true \/ exists k, q = Nat.iter k dirname entry.
Proof.
  revert entry. induction fuel as [|fuel IH]; intros entry; simpl; [auto|].
  destruct (Py.eqb entry []); [auto|].
  destruct (Py.eqb entry (dirname entry)); [auto|].
  destruct (Py.eqb q (dirname entry)) eqn:E.
  - intros _. right. exists 1%nat. by apply eqb_true_iff in E.
  - intros H. destruct (IH _ H) as [?|[k ->]]; [auto|].
    right. exists (S k). by rewrite iter_dirname_succ.
Qed.

(** With fuel above the length of the entry, the loop reaches every
    directory above it. *)
Lemma ancestor_loop_complete k : forall fuel q entry ok,
  (length entry < fuel)%nat ->
  q = Nat.iter k dirname entry ->
  q = entry \/ ancestor_loop fuel q entry ok = true.
Proof.
  induction k as [|k IH]; intros fuel q entry ok Hfuel Hq; [by left|].
  rewrite iter_dirname_succ in Hq.
  destruct fuel as [|fuel]; [lia|]. simpl.
  destruct (Py.eqb entry (dirname entry)) eqn:Efix.
  { apply eqb_true_iff in Efix. left.
    rewrite <- Efix in Hq. by rewrite iter_dirname_fixed in Hq. }
  apply eqb_false_iff in Efix.
  destruct (Py.eqb entry []) eqn:Enil.
  { apply eqb_true_iff in Enil. subst entry. by destruct Efix. }
  destruct (Py.eqb q (dirname entry)) eqn:Eq; [by right|].
  apply eqb_false_iff in Eq.
  assert (length (dirname entry) < fuel)%nat as Hlen.
  { assert (dirname entry <> entry) as Hne by congruence.
    apply dirname_shorter in Hne. lia. }
  destruct (IH fuel q (dirname entry) ok Hlen Hq); [done | by right].
Qed.

(** One whitelist entry allows a path exactly if it is a prefix of the
    path, as strings, or the path is a directory above the entry. *)
Lemma whitelist_step_spec q ok entry :
  whitelist_step q ok entry = true <->
  ok = true \/ Py.startswith entry q = true
  \/ exists k, q = Nat.iter k dirname entry.
Proof.
  unfold whitelist_step. split.
  - intros H. apply ancestor_loop_sound in H as [H|H]; [|auto].
    destruct (Py.startswith entry q); auto.
  - intros [->|[->|[k Hk]]].
    + destruct (Py.startswith entry q); apply ancestor_loop_true.
    + apply ancestor_loop_true.
    + eapply (ancestor_loop_complete k (S (length entry))) in Hk as [->|Hk];
        [| exact Hk | lia].
      rewrite (proj2 (startswith_prefix entry entry)) by done.
      apply ancestor_loop_true.
Qed.

Lemma whitelisted_fold q white_list ok :
  fold_left (whitelist_step q) white_list ok = true <->
  ok = true
  \/ exists entry, In entry white_list
       /\ (Py.startswith entry q = true \/ exists k, q = Nat.iter k dirname entry).
Proof.
  revert ok. induction white_list as [|e wl IH]; intros ok; simpl.
  - split; [auto | intros [?|[? [[] _]]]; done].
  - rewrite IH, whitelist_step_spec. split.
    + intros [[?|H']|[entry [? ?]]]; eauto 6.
    + intros [?|[entry [[<-|?] H']]]; eauto 6.
Qed.

Lemma whitelisted_spec white_list q :
  whitelisted white_list q = true <->
  exists entry, In entry white_list
    /\ (Py.startswith entry q = true \/ exists k, q = Nat.iter k dirname entry).
Proof.
  unfold whitelisted. rewrite whitelisted_fold. split; [|auto].
  intros [?|?]; done.
Qed.

Lemma audit_fold white_list loaded_filenames result :
  fold_left (audit_step white_list) loaded_filenames result
  = result ++ List.filter (fun q => negb (allowed white_list q))
                (map normalize loaded_filenames).
Proof.
  revert result.
  induction loaded_filenames as [|p l IH]; intros result;
    cbn [fold_left map List.filter].
  - by rewrite app_nil_r.
  - rewrite IH. unfold audit_step, allowed.
    destruct (whitelisted white_list (normalize p)); cbn [orb negb]; [done|].
    destruct (exempt (normalize p)); cbn [negb]; [done|].
    by rewrite <- app_assoc.
Qed.

Lemma audit_filter loaded_filenames white_list :
  checkRuntimeLoadedFilesForOutsideAccesses loaded_filenames white_list
  = List.filter (fun q => negb (allowed white_list q))
      (map normalize loaded_filenames).
Proof. unfold checkRuntimeLoadedFilesForOutsideAccesses. by rewrite audit_fold. Qed.

Lemma reported_not_whitelisted loaded_filenames white_list q :
  In q (checkRuntimeLoadedFilesForOutsideAccesses loaded_filenames white_list) ->
  whitelisted white_list q = false.
Proof.
  rewrite audit_filter, filter_In. intros [_ H]. unfold allowed in H.
  by destruct (whitelisted white_list q).
Qed.

End AuditorFacts.

(** C6. A normalized path that starts with a whitelist entry, or is a
    directory above one, is never reported; a path of the report that no
    whitelist entry and no built-in exemption covers is reported; and the
    violations are the normalized paths that are not let pass, in the order
    of the report. *)
Theorem audit_reports_the_unlisted_in_order :
  forall (loaded_filenames white_list : list pystr),
    let result :=
      checkRuntimeLoadedFilesForOutsideAccesses loaded_filenames white_list in
    (forall q entry, In entry white_list ->
       Py.startswith entry q = true -> ~ In q result)
    /\ (forall q entry k, In entry white_list ->
       q = Nat.iter k dirname entry -> ~ In q result)
    /\ (forall p, In p loaded_filenames ->
       (forall entry, In entry white_list ->
          Py.startswith entry (normalize p) = false
          /\ forall k, normalize p <> Nat.iter k dirname entry) ->
       exempt (normalize p) = false ->
       In (normalize p) result)
    /\ result = List.filter (fun q => negb (whitelisted white_list q || exempt q))
                  (map normalize loaded_filenames).
Proof.
  intros loaded_filenames white_list result. repeat split.
  - intros q entry Hin Hs Hq. apply reported_not_whitelisted in Hq.
    assert (whitelisted white_list q = true) by (apply whitelisted_spec; eauto).
    congruence.
  - intros q entry k Hin Hk Hq. apply reported_not_whitelisted in Hq.
    assert (whitelisted white_list q = true) by (apply whitelisted_spec; eauto).
    congruence.
  - intros p Hp Hwl Hex. subst result. rewrite audit_filter, filter_In. split.
    + by apply in_map.
    + unfold allowed. rewrite Hex, orb_false_r.
      destruct (whitelisted white_list (normalize p)) eqn:E; [|done].
      apply whitelisted_spec in E as [entry [Hin H]].
      destruct (Hwl entry Hin) as [Hs Hk].
      destruct H as [H|[k H]]; [congruence | by destruct (Hk k)].
  - apply audit_filter.
Qed.

Lemma audit_reports_the_unlisted_in_order_witness :
  ~ In (lit "/usr/lib/libfoo.so")
      (checkRuntimeLoadedFilesForOutsideAccesses
         [lit "/home/user/secret"; lit "/usr/lib/libfoo.so"] [lit "/usr/lib"])
  /\ checkRuntimeLoadedFilesForOutsideAccesses
       [lit "/home/user/secret"; lit "/usr/lib/libfoo.so"] [lit "/usr/lib"]
     = [lit "/home/user/secret"].
Proof.
  destruct (audit_reports_the_unlisted_in_order
              [lit "/home/user/secret"; lit "/usr/lib/libfoo.so"] [lit "/usr/lib"])
    as (Hprefix & _).
  split.
  - apply (Hprefix (lit "/usr/lib/libfoo.so") (lit "/usr/lib")).
    + left. reflexivity.
    + vm_compute. reflexivity.
  - vm_compute. reflexivity.
Defined.

(** C10. With the empty string in the whitelist nothing is reported,
    whatever the report holds. *)
Theorem audit_empty_entry_allows_all :
  forall (loaded_filenames white_list : list pystr),
    In [] white_list ->
    checkRuntimeLoadedFilesForOutsideAccesses loaded_filenames white_list = [].
Proof.
  intros loaded_filenames white_list Hin. rewrite audit_filter.
  assert (forall q, whitelisted white_list q = true) as Hall.
  { intros q. apply whitelisted_spec. exists []. split; [done|].
    left. apply startswith_nil. }
  induction (map normalize loaded_filenames) as [|q l IH]; [done|].
  cbn [List.filter]. unfold allowed at 1. by rewrite Hall.
Qed.

Lemma audit_empty_entry_allows_all_witness :
  In [] [lit "/opt/app"; []]
  /\ checkRuntimeLoadedFilesForOutsideAccesses
       [lit "/home/user/secret"; lit "/usr/libfoo/x"] [lit "/opt/app"; []] = [].
Proof.
  split; [right; left; reflexivity|].
  apply audit_empty_entry_allows_all. right; left; reflexivity.
Defined.

(** C4, as the code has it. A path that a whitelist entry is a prefix of,
    as a string, is never reported, on a path-segment boundary or not. *)
Theorem audit_prefix_is_a_string_prefix :
  forall (loaded_filenames white_list : list pystr) (entry rest : pystr),
    In entry white_list ->
    ~ In (entry ++ rest)
        (checkRuntimeLoadedFilesForOutsideAccesses loaded_filenames white_list).
Proof.
  intros loaded_filenames white_list entry rest Hin Hq.
  apply reported_not_whitelisted in Hq.
  assert (whitelisted white_list (entry ++ rest) = true); [|congruence].
  apply whitelisted_spec. exists entry. split; [done|]. left. apply startswith_app.
Qed.

Lemma audit_prefix_is_a_string_prefix_witness :
  In (lit "/usr/lib") [lit "/usr/lib"]
  /\ ~ In (lit "/usr/lib" ++ lit "foo/x")
         (checkRuntimeLoadedFilesForOutsideAccesses
            [lit "/usr/libfoo/x"] [lit "/usr/lib"]).
Proof.
  split; [left; reflexivity|].
  apply audit_prefix_is_a_string_prefix. left; reflexivity.
Defined.

(** C4, refuted as stated: "/usr/lib" is no directory above
    "/usr/libfoo/x", the two only share a prefix, and yet the path is not
    reported. *)
Lemma audit_common_prefix_not_reported :
  let entry := lit "/usr/lib" in
  let path := lit "/usr/libfoo/x" in
  normalize path = path
  /\ Py.startswith entry path = true
  /\ (forall k, Nat.iter k dirname path <> entry)
  /\ exempt path = false
  /\ ~ In path (checkRuntimeLoadedFilesForOutsideAccesses [path] [entry]).
Proof.
  split; [by vm_compute|]. split; [by vm_compute|].
  split; [|split; [by vm_compute|]].
  - intros k. destruct k as [|[|[|k]]]; [by vm_compute ..|].
    rewrite !iter_dirname_succ.
    replace (dirname (dirname (dirname (lit "/usr/libfoo/x")))) with (lit "/")
      by (by vm_compute).
    rewrite iter_dirname_fixed; by vm_compute.
  - vm_compute. tauto.
Qed.

(** ** The order of strings *)

Section Order.

Implicit Types a b c : pystr.

Lemma ltb_irrefl a : Py.ltb a a = false.
Proof.
  induction a as [|x a IH]; simpl; [done|].
  rewrite IH, N.ltb_irrefl, N.eqb_refl. done.
Qed.

Lemma ltb_trans a : forall b c,
  Py.ltb a b = true -> Py.ltb b c = true -> Py.ltb a c = true.
Proof.
  induction a as [|x a IH]; intros [|y b] [|z c]; simpl; try done.
  rewrite !orb_true_iff, !andb_true_iff, !N.ltb_lt, !N.eqb_eq.
  intros [?|[-> ?]] [?|[-> ?]]; [left; lia | by left | by left |].
  right. split; [done|]. by eapply IH.
Qed.

Lemma ltb_trichotomy a : forall b,
  Py.ltb a b = true \/ a = b \/ Py.ltb b a = true.
Proof.
  induction a as [|x a IH]; intros [|y b]; simpl; auto.
  rewrite !orb_true_iff, !andb_true_iff, !N.ltb_lt, !N.eqb_eq.
  destruct (N.lt_trichotomy x y) as [?|[ ->|?]]; [auto | | auto].
  destruct (IH b) as [?|[ ->|?]]; auto.
Qed.

Lemma ltb_asym a b : Py.ltb a b = true -> Py.ltb b a = false.
Proof.
  intros H. destruct (Py.ltb b a) eqn:E; [|done].
  pose proof (ltb_trans _ _ _ H E) as Haa. by rewrite ltb_irrefl in Haa.
Qed.

#[local] Instance le_total : Total Py.le.
Proof.
  intros a b. unfold Py.le, Py.leb.
  destruct (Py.ltb b a) eqn:E; [right | by left].
  by rewrite (ltb_asym _ _ E).
Qed.

#[local] Instance le_trans : Transitive Py.le.
Proof.
  intros a b c. unfold Py.le, Py.leb. rewrite !negb_true_iff.
  intros Hba Hcb. destruct (Py.ltb c a) eqn:Hca; [|done].
  destruct (ltb_trichotomy a b) as [Hab|[->|Hba']]; [|congruence..].
  pose proof (ltb_trans _ _ _ Hca Hab). congruence.
Qed.

Lemma le_lt_or_eq a b : Py.le a b -> Py.lt a b \/ a = b.
Proof.
  unfold Py.le, Py.lt, Py.leb. rewrite negb_true_iff. intros H.
  destruct (ltb_trichotomy a b) as [?|[?|?]]; [auto | auto | congruence].
Qed.

(** Ascending without repetition is strictly ascending. *)
Lemma strictly_sorted l :
  StronglySorted Py.le l -> NoDup l -> StronglySorted Py.lt l.
Proof.
  induction 1 as [|x l Hl IH Hx]; intros Hnd; constructor.
  - apply IH. by apply NoDup_cons_1_2 in Hnd.
  - apply NoDup_cons_1_1 in Hnd.
    rewrite Forall_forall in *. intros y Hy.
    destruct (le_lt_or_eq x y (Hx y Hy)) as [?| ->]; [done|].
    by destruct Hnd.
Qed.

Lemma sorted_set_elem_of l x : In x (Py.sorted_set l) <-> In x l.
Proof.
  unfold Py.sorted_set. rewrite <- !list_elem_of_In.
  rewrite merge_sort_Permutation, elem_of_elements, elem_of_list_to_set. done.
Qed.

Lemma sorted_set_NoDup l : NoDup (Py.sorted_set l).
Proof.
  unfold Py.sorted_set. rewrite merge_sort_Permutation. apply NoDup_elements.
Qed.

Lemma sorted_set_sorted l : StronglySorted Py.le (Py.sorted_set l).
Proof. unfold Py.sorted_set. apply StronglySorted_merge_sort; apply _. Qed.

Lemma sorted_set_strict l : StronglySorted Py.lt (Py.sorted_set l).
Proof. apply strictly_sorted; [apply sorted_set_sorted | apply sorted_set_NoDup]. Qed.

(** Order and multiplicity of the entries do not matter. *)
Lemma sorted_set_ext l1 l2 :
  (forall x, In x l1 <-> In x l2) -> Py.sorted_set l1 = Py.sorted_set l2.
Proof.
  intros H. unfold Py.sorted_set. f_equal. f_equal.
  apply set_eq. intros x. rewrite !elem_of_list_to_set, !list_elem_of_In. apply H.
Qed.

End Order.

(** C8. Whatever the traced run, the list the function returns ascends
    strictly in the order of strings: it is sorted and no entry occurs
    twice. It holds the entries of the list built from the trace, and two
    traces that yield the same entries, in any order and any number of
    times, give the same list. *)
Theorem trace_result_sorted_without_duplicates :
  forall (h : Host) (path : pystr) (trace_stderr : bool) (result : list pystr),
    getRuntimeTraceOfLoadedFiles h path trace_stderr = Returned result ->
    Sorted Py.le result
    /\ NoDup result
    /\ StronglySorted Py.lt result
    /\ exists raw, loaded_files h path = Returned raw
         /\ (forall x, In x result <-> In x raw)
         /\ forall raw', (forall x, In x raw' <-> In x raw) ->
              Py.sorted_set raw' = result.
Proof.
  intros h path trace_stderr result. unfold getRuntimeTraceOfLoadedFiles.
  destruct (loaded_files h path) as [raw| |] eqn:E; [|done..].
  cbn. intros [= <-]. repeat split.
  - apply StronglySorted_Sorted, sorted_set_sorted.
  - apply sorted_set_NoDup.
  - apply sorted_set_strict.
  - exists raw. split; [done|]. split.
    + apply sorted_set_elem_of.
    + intros raw' H. by apply sorted_set_ext.
Qed.

Lemma trace_result_sorted_without_duplicates_witness :
  getRuntimeTraceOfLoadedFiles linux_host (lit "/opt/app/prog") true
  = Returned [lit "/opt/app/data.bin"; lit "/opt/app/prog"; lit "/proc/self/exe"]
  /\ NoDup [lit "/opt/app/data.bin"; lit "/opt/app/prog"; lit "/proc/self/exe"]
  /\ StronglySorted Py.lt
       [lit "/opt/app/data.bin"; lit "/opt/app/prog"; lit "/proc/self/exe"].
Proof.
  assert (getRuntimeTraceOfLoadedFiles linux_host (lit "/opt/app/prog") true
          = Returned [lit "/opt/app/data.bin"; lit "/opt/app/prog";
                      lit "/proc/self/exe"]) as Hrun.
  { vm_compute. reflexivity. }
  destruct (trace_result_sorted_without_duplicates linux_host
              (lit "/opt/app/prog") true _ Hrun)
    as (_ & Hnodup & Hsorted & _).
  split; [exact Hrun|]. split; [exact Hnodup | exact Hsorted].
Defined.

(** Replaces a literal by the list of its code units. *)
Ltac eval_lit s :=
  let v := eval vm_compute in (lit s) in
  change (lit s) with v in *.

Section TracerFacts.

Implicit Types s p g r : pystr.

Lemma findall_skip pre s :
  Forall (fun c => c <> quote) pre ->
  findall_quoted None (pre ++ s) = findall_quoted None s.
Proof.
  induction 1 as [|c pre Hc _ IH]; [done|].
  cbn [app findall_quoted]. apply N.eqb_neq in Hc. by rewrite Hc.
Qed.

Lemma findall_closing p : forall g r,
  Forall (fun c => c <> quote /\ c <> newline) p ->
  findall_quoted (Some g) (p ++ quote :: r)
  = strip_nul (g ++ p) :: findall_quoted None r.
Proof.
  induction p as [|c p IH]; intros g r Hp.
  - cbn [app findall_quoted]. by rewrite N.eqb_refl, app_nil_r.
  - apply Forall_cons in Hp as [[Hq Hn] Hp].
    apply N.eqb_neq in Hq, Hn.
    cbn [app findall_quoted]. rewrite Hq, Hn, IH by done.
    by rewrite <- app_assoc.
Qed.

Lemma find_nonneg_startswith sub s : Py.startswith sub s = true -> Py.find sub s = 0.
Proof. intros H. destruct s; simpl; by rewrite H. Qed.

(** [find] walks over a stretch without the first unit of the pattern. *)
Lemma find_skip c sub pre s :
  Forall (fun x => x <> c) pre ->
  0 <= Py.find (c :: sub) s ->
  Py.find (c :: sub) (pre ++ s) = Z.of_nat (length pre) + Py.find (c :: sub) s.
Proof.
  intros Hpre Hs. induction Hpre as [|x pre Hx _ IH]; [simpl; lia|].
  cbn [app Py.find length]. rewrite IH.
  assert (Py.startswith (c :: sub) (x :: pre ++ s) = false) as ->.
  { cbn [Py.startswith]. apply not_eq_sym, N.eqb_neq in Hx. by rewrite Hx. }
  destruct (Z.ltb_spec (Z.of_nat (length pre) + Py.find (c :: sub) s) 0); lia.
Qed.

Lemma slice_middle (pre mid post : pystr) :
  Py.slice (Z.of_nat (length pre)) (Z.of_nat (length pre + length mid))
    (pre ++ mid ++ post) = mid.
Proof.
  unfold Py.slice, Py.clamp. rewrite !length_app.
  destruct (Z.ltb_spec (Z.of_nat (length pre)) 0); [lia|].
  destruct (Z.ltb_spec (Z.of_nat (length pre + length mid)) 0); [lia|].
  rewrite !Z.min_l by lia.
  rewrite Nat2Z.id, drop_app_length.
  replace (Z.to_nat _) with (length mid) by lia.
  by rewrite take_app_length.
Qed.

Lemma readlink_line_findall p rest :
  Forall (fun c => c <> quote /\ c <> newline) p ->
  findall_quoted None (readlink_line p rest)
  = strip_nul p :: findall_quoted None (lit ", " ++ rest).
Proof.
  intros Hp. unfold readlink_line.
  rewrite findall_skip by (eval_lit "readlink("%string; repeat constructor; by vm_compute).
  cbn [app findall_quoted]. rewrite N.eqb_refl.
  by rewrite findall_closing.
Qed.

Lemma readlink_line_filename p rest :
  Forall (fun c => c <> 44%N) p ->
  syscall_filename (readlink_line p rest) = p.
Proof.
  intros Hp. unfold syscall_filename, readlink_line.
  assert (Py.find (lit "(") (lit "readlink(" ++ [quote] ++ p ++ [quote] ++ lit ", " ++ rest) = 8) as ->.
  { eval_lit "readlink("%string. eval_lit "("%string. reflexivity. }
  assert (Py.find (lit ", ") (lit "readlink(" ++ [quote] ++ p ++ [quote] ++ lit ", " ++ rest)
          = Z.of_nat (length p) + 11) as ->.
  { eval_lit ", "%string.
    rewrite !app_assoc, <- (app_assoc _ [44; 32]%N rest).
    rewrite find_skip.
    - rewrite find_nonneg_startswith by done.
      rewrite !length_app. eval_lit "readlink("%string. cbn [length]. lia.
    - rewrite !Forall_app. repeat split;
        [eval_lit "readlink("%string; repeat constructor; by vm_compute
        | repeat constructor; by vm_compute | done | repeat constructor; by vm_compute].
    - by rewrite find_nonneg_startswith. }
  pose proof (slice_middle (lit "readlink(" ++ [quote]) p ([quote] ++ lit ", " ++ rest)) as H.
  rewrite <- !app_assoc in H.
  replace (8 + 2) with (Z.of_nat (length (lit "readlink(" ++ [quote])))
    by (by vm_compute).
  replace (Z.of_nat (length p) + 11 - 1)
    with (Z.of_nat (length (lit "readlink(" ++ [quote]) + length p)); [done|].
  rewrite Nat2Z.inj_add. replace (length (lit "readlink(" ++ [quote])) with 10%nat
    by (by vm_compute). lia.
Qed.

(** With fuel above the length of the path, the search for the
    interpreter binary does not depend on the fuel. *)
Lemma binary_loop_fuel h filename : forall fuel fuel' binary_path found,
  (length binary_path < fuel)%nat -> (length binary_path < fuel')%nat ->
  binary_loop fuel h filename binary_path found
  = binary_loop fuel' h filename binary_path found.
Proof.
  induction fuel as [|fuel IH]; intros fuel' binary_path found Hf Hf'; [lia|].
  destruct fuel' as [|fuel']; [lia|]. cbn [binary_loop].
  destruct (Py.eqb binary_path []); [done|].
  destruct (Py.eqb filename binary_path); [done|].
  destruct (Py.eqb binary_path (dirname binary_path)) eqn:E; [done|].
  apply eqb_false_iff in E.
  assert (length (dirname binary_path) < length binary_path)%nat.
  { apply dirname_shorter. congruence. }
  destruct (Py.eqb filename _); apply IH; lia.
Qed.

Lemma decode_all_spec l : forall l',
  decode_all l = Returned l' <-> Forall2 (fun m x => utf8_decode m = Some x) l l'.
Proof.
  induction l as [|m l IH]; intros l'; cbn [decode_all].
  - split; [intros [= <-]; constructor | by inversion 1].
  - destruct (utf8_decode m) as [t|] eqn:E.
    + destruct (decode_all l) as [l0| |] eqn:El; cbn.
      * split.
        -- intros [= <-]. constructor; [done | by apply IH].
        -- inversion 1 as [|? ? ? ? Hm Hl]; subst. apply IH in Hl.
           congruence.
      * split; [done|]. inversion 1 as [|? ? ? ? Hm Hl]; subst.
        apply IH in Hl. congruence.
      * split; [done|]. inversion 1 as [|? ? ? ? Hm Hl]; subst.
        apply IH in Hl. congruence.
    + split; [done|]. inversion 1; congruence.
Qed.

End TracerFacts.

Lemma Forall2_In_l {A B} (P : A -> B -> Prop) l k x :
  Forall2 P l k -> In x l -> exists y, In y k /\ P x y.
Proof.
  induction 1 as [|a b l k Hab _ IH]; intros Hx; [done|].
  destruct Hx as [<-|Hx]; [exists b; split; [by left | done]|].
  destruct (IH Hx) as (y & ? & ?). exists y. split; [by right | done].
Qed.

Lemma Forall2_In_r {A B} (P : A -> B -> Prop) l k y :
  Forall2 P l k -> In y k -> exists x, In x l /\ P x y.
Proof.
  induction 1 as [|a b l k Hab _ IH]; intros Hy; [done|].
  destruct Hy as [<-|Hy]; [exists a; split; [by left | done]|].
  destruct (IH Hy) as (x & ? & ?). exists x. split; [by right | done].
Qed.

Lemma posix_result_members (h : Host) (path : pystr) (raw : list pystr) :
  os_name h = lit "posix" ->
  loaded_files h path = Returned raw ->
  forall x, In x raw <->
    exists line m, In line (trace_lines h path) /\ In m (trace_line h line)
      /\ (if python3 h then utf8_decode m else Some m) = Some x.
Proof.
  intros Hos. unfold loaded_files. rewrite Hos, eqb_refl.
  destruct (require_tracer h) as [[]| |]; cbn; [|done..].
  destruct (fst (traced h path) =? 0); cbn [negb]; [|done].
  destruct (python3 h).
  - intros Hdec x. apply decode_all_spec in Hdec.
    split.
    + intros Hx. destruct (Forall2_In_r _ _ _ _ Hdec Hx) as (m & Hm & Hmx).
      apply in_flat_map in Hm as (line & ? & ?). eauto.
    + intros (line & m & Hl & Hm & Hx).
      assert (In m (flat_map (trace_line h) (trace_lines h path))) as Hin.
      { apply in_flat_map. eauto. }
      destruct (Forall2_In_l _ _ _ _ Hdec Hin) as (x' & ? & ?).
      congruence.
  - intros [= <-] x. rewrite in_flat_map. split.
    + intros (line & ? & ?). eauto.
    + intros (line & m & ? & ? & [= <-]). eauto.
Qed.

(** C7. A line that holds ENOENT adds nothing to the result, nor does a
    [stat(] line that holds S_IFDIR; a [readlink(] line for a file that is
    found and is no reference of the interpreter to itself adds the absolute
    path of the quoted file; and the returned list holds what the lines add,
    nothing else. *)
Theorem trace_lines_skipped_and_kept :
  forall (h : Host),
    (forall line,
       Py.contains (lit "ENOENT") line = true -> trace_line h line = [])
    /\ (forall line,
       Py.startswith (lit "stat(") line = true ->
       Py.contains (lit "S_IFDIR") line = true -> trace_line h line = [])
    /\ (forall p rest,
       Forall (fun c => c <> quote /\ c <> newline) p ->
       Py.contains (lit "ENOENT") (readlink_line p rest) = false ->
       self_reference h (syscall_filename (readlink_line p rest)) = false ->
       In (posixpath.abspath (getcwd h) (strip_nul p))
          (trace_line h (readlink_line p rest)))
    /\ (forall p rest,
       Forall (fun c => c <> 44%N) p ->
       syscall_filename (readlink_line p rest) = p)
    /\ (forall path trace_stderr result,
       os_name h = lit "posix" ->
       getRuntimeTraceOfLoadedFiles h path trace_stderr = Returned result ->
       forall x, In x result <->
         exists line m, In line (trace_lines h path) /\ In m (trace_line h line)
           /\ (if python3 h then utf8_decode m else Some m) = Some x).
Proof.
  intros h. split; [|split; [|split; [|split]]].
  - intros line H. unfold trace_line. rewrite H. by destruct (Py.eqb line []).
  - intros line Hs Hd. unfold trace_line. rewrite Hs, Hd. cbn [andb].
    by repeat case_match.
  - intros p rest Hp Henoent Hself. unfold trace_line.
    rewrite Henoent, Hself, andb_false_r.
    assert (Py.eqb (readlink_line p rest) [] = false) as ->.
    { apply eqb_false_iff. unfold readlink_line. eval_lit "readlink("%string. done. }
    assert (Py.startswith (lit "stat(") (readlink_line p rest) = false) as ->.
    { unfold readlink_line. eval_lit "readlink("%string. eval_lit "stat("%string. done. }
    cbn [andb]. rewrite readlink_line_findall by done. by left.
  - apply readlink_line_filename.
  - intros path trace_stderr result Hos. unfold getRuntimeTraceOfLoadedFiles.
    destruct (loaded_files h path) as [raw| |] eqn:E; cbn; [|done..].
    intros [= <-] x. rewrite sorted_set_elem_of.
    by apply posix_result_members.
Qed.

Lemma trace_lines_skipped_and_kept_witness :
  In (lit "/proc/self/exe")
     (trace_line linux_host
        (readlink_line (lit "/proc/self/exe")
           (quoted (lit "/opt/app/prog") ++ lit ", 4096) = 13"))).
Proof.
  destruct (trace_lines_skipped_and_kept linux_host) as (_ & _ & Hkept & _).
  apply (Hkept (lit "/proc/self/exe")
           (quoted (lit "/opt/app/prog") ++ lit ", 4096) = 13")).
  - repeat constructor; vm_compute; discriminate.
  - vm_compute. reflexivity.
  - vm_compute. reflexivity.
Defined.

Section DictFacts.

Implicit Types m : dict.
Implicit Types k : pystr.

Lemma dict_get_add k c m k' :
  Dict.get k' (Dict.add k c m)
  = if Py.eqb k' k
    then Some (match Dict.get k m with Some v => v + c | None => c end)
    else Dict.get k' m.
Proof.
  induction m as [|[k0 v] m IH]; cbn [Dict.add Dict.get].
  - destruct (Py.eqb k' k); done.
  - destruct (Py.eqb k k0) eqn:E; cbn [Dict.get].
    + apply eqb_true_iff in E as ->. by destruct (Py.eqb k' k0).
    + rewrite IH. destruct (Py.eqb k' k0) eqn:E'; [|done].
      apply eqb_true_iff in E' as ->.
      destruct (Py.eqb k0 k) eqn:E''; [|done].
      apply eqb_true_iff in E'' as ->. by rewrite eqb_refl in E.
Qed.

Lemma dict_contains_add k c m k' :
  Dict.contains k' (Dict.add k c m) = true
  <-> k' = k \/ Dict.contains k' m = true.
Proof.
  unfold Dict.contains. rewrite dict_get_add.
  destruct (Py.eqb k' k) eqn:E.
  - apply eqb_true_iff in E. split; auto.
  - apply eqb_false_iff in E. split; [auto | intros [?|?]; done].
Qed.

Lemma dict_add_nonempty k c m : Dict.add k c m <> [].
Proof. destruct m as [|[k0 v] m]; cbn; [done|]. by destruct (Py.eqb k k0). Qed.

Lemma dict_get_In k v m : Dict.get k m = Some v -> In (k, v) m.
Proof.
  induction m as [|[k0 v0] m IH]; cbn; [done|].
  destruct (Py.eqb k k0) eqn:E.
  - apply eqb_true_iff in E as ->. intros [= ->]. by left.
  - intros H. right. by apply IH.
Qed.

End DictFacts.

Section CensusFacts.

Lemma current_set_current before m maps :
  current before (set_current before m maps) = m.
Proof. by destruct before. Qed.

Lemma other_set_current before m maps :
  current (negb before) (set_current before m maps) = current (negb before) maps.
Proof. by destruct before. Qed.

Lemma snap_step_census before maps x :
  is_census_map x = true -> snap_step before maps x = Returned maps.
Proof. intros H. unfold snap_step. by rewrite H. Qed.

(** The snapshot goes through the live objects as if the two census maps
    were not among them. *)
Lemma snap_loop_filter before objects : forall maps,
  snap_loop before maps objects
  = snap_loop before maps (List.filter (fun x => negb (is_census_map x)) objects).
Proof.
  induction objects as [|x objects IH]; intros maps; [done|].
  cbn [List.filter snap_loop].
  destruct (is_census_map x) eqn:E; cbn [negb].
  - rewrite snap_step_census by done. cbn. apply IH.
  - cbn [snap_loop]. destruct (snap_step before maps x); cbn; [apply IH | done..].
Qed.

(** A step adds at most the key of the object it looks at, and does so for
    no census map. *)
Lemma snap_step_keys before maps x maps' k :
  snap_step before maps x = Returned maps' ->
  Dict.contains k (current before maps') = true ->
  Dict.contains k (current before maps) = true
  \/ (is_census_map x = false /\ key_of x = Returned k).
Proof.
  unfold snap_step. destruct (is_census_map x); [intros [= <-]; auto|].
  destruct (match obj_kind x with KStr _ => _ | _ => _ end);
    [intros [= <-]; auto|].
  destruct (key_of x) as [k0| |]; cbn; [|done..].
  intros [= <-]. rewrite current_set_current, dict_contains_add.
  intros [->|?]; auto.
Qed.

Lemma snap_loop_keys before objects : forall maps maps' k,
  snap_loop before maps objects = Returned maps' ->
  Dict.contains k (current before maps') = true ->
  Dict.contains k (current before maps) = true
  \/ exists x, In x objects /\ is_census_map x = false /\ key_of x = Returned k.
Proof.
  induction objects as [|x objects IH]; intros maps maps' k; cbn [snap_loop].
  - intros [= <-]. auto.
  - destruct (snap_step before maps x) as [maps1| |] eqn:E; cbn; [|done..].
    intros Hloop Hk. destruct (IH _ _ _ Hloop Hk) as [Hk1|(y & ? & ? & ?)].
    + destruct (snap_step_keys _ _ _ _ _ E Hk1) as [?|[? ?]]; [auto|].
      right. exists x. split; [by left | done].
    + right. exists y. split; [by right | done].
Qed.

End CensusFacts.

(** C9. A snapshot, into either map, goes through the live objects as if
    the two census maps were not among them: it is the snapshot of the other
    objects, and every key it holds is the key of a live object that is
    neither [m1] nor [m2]. *)
Theorem census_maps_are_not_counted :
  forall (W : Type) (interp : Interp W) (before : bool) (w : W) (maps : Maps),
    let objects := gc_get_objects interp (gc_collect interp w) in
    snapObjRefCntMap interp before w maps
    = (maps' ← snap_loop before (set_current before [] maps)
                 (List.filter (fun x => negb (is_census_map x)) objects);
       Returned (gc_collect interp w, maps'))
    /\ forall w' maps' k,
         snapObjRefCntMap interp before w maps = Returned (w', maps') ->
         Dict.contains k (current before maps') = true ->
         exists x, In x objects /\ is_census_map x = false
                   /\ key_of x = Returned k.
Proof.
  intros W interp before w maps objects. unfold snapObjRefCntMap. split.
  - by rewrite snap_loop_filter.
  - intros w' maps' k.
    destruct (snap_loop _ _ _) as [maps1| |] eqn:E; cbn; [|done..].
    intros [= <- <-] Hk.
    destruct (snap_loop_keys _ _ _ _ _ E Hk) as [Hk0|?]; [|done].
    by rewrite current_set_current in Hk0.
Qed.

Lemma census_maps_are_not_counted_witness :
  exists x, In x heap0 /\ is_census_map x = false
            /\ key_of x = Returned (lit "a").
Proof.
  destruct (census_maps_are_not_counted (list pyobject) heap true heap0 no_maps)
    as [_ Hkeys].
  eapply Hkeys.
  - vm_compute. reflexivity.
  - vm_compute. reflexivity.
Defined.

Section SnapshotFacts.

Lemma snap_step_other before maps x maps' :
  snap_step before maps x = Returned maps' ->
  current (negb before) maps' = current (negb before) maps.
Proof.
  unfold snap_step. destruct (is_census_map x); [by intros [= <-]|].
  destruct (match obj_kind x with KStr _ => _ | _ => _ end); [by intros [= <-]|].
  destruct (key_of x); cbn; [|done..].
  intros [= <-]. apply other_set_current.
Qed.

Lemma snap_step_nonempty before maps x maps' :
  snap_step before maps x = Returned maps' ->
  current before maps <> [] \/ counted x = true ->
  current before maps' <> [].
Proof.
  unfold snap_step, counted. destruct (is_census_map x); cbn [negb andb].
  { intros [= <-] [?|?]; done. }
  destruct (obj_kind x) eqn:Ek;
    try (destruct (key_of x); cbn; [|done..]; intros [= <-] _;
         rewrite current_set_current; apply dict_add_nonempty).
  destruct (_ || _).
  - intros [= <-] [?|?]; done.
  - destruct (key_of x); cbn; [|done..]. intros [= <-] _.
    rewrite current_set_current. apply dict_add_nonempty.
Qed.

Lemma snap_step_returns before maps x :
  is_census_map x || keyed x = true ->
  exists maps', snap_step before maps x = Returned maps'.
Proof.
  unfold snap_step, keyed. destruct (is_census_map x); cbn [orb]; [eauto|].
  destruct (match obj_kind x with KStr _ => _ | _ => _ end); [eauto|].
  destruct (key_of x); [cbn; eauto | done..].
Qed.

Lemma snap_loop_other before objects : forall maps maps',
  snap_loop before maps objects = Returned maps' ->
  current (negb before) maps' = current (negb before) maps.
Proof.
  induction objects as [|x objects IH]; intros maps maps'; cbn [snap_loop].
  - by intros [= <-].
  - destruct (snap_step before maps x) as [maps1| |] eqn:E; cbn; [|done..].
    intros H. rewrite (IH _ _ H). by eapply snap_step_other.
Qed.

Lemma snap_loop_nonempty before objects : forall maps maps',
  snap_loop before maps objects = Returned maps' ->
  current before maps <> [] \/ existsb counted objects = true ->
  current before maps' <> [].
Proof.
  induction objects as [|x objects IH]; intros maps maps'; cbn [snap_loop existsb].
  - intros [= <-] [?|?]; done.
  - destruct (snap_step before maps x) as [maps1| |] eqn:E; cbn; [|done..].
    intros H Hne. apply (IH _ _ H).
    destruct Hne as [?|Hc]; [left; eapply snap_step_nonempty; eauto|].
    apply orb_true_iff in Hc as [?|?]; [|by right].
    left. eapply snap_step_nonempty; eauto.
Qed.

Lemma snap_loop_returns before objects : forall maps,
  forallb (fun x => is_census_map x || keyed x) objects = true ->
  exists maps', snap_loop before maps objects = Returned maps'.
Proof.
  induction objects as [|x objects IH]; intros maps; cbn [snap_loop forallb].
  - eauto.
  - rewrite andb_true_iff. intros [Hx Hl].
    destruct (snap_step_returns before maps x Hx) as [maps1 ->]. cbn. by apply IH.
Qed.

Context {W : Type} (interp : Interp W).

(** On a census that is in order a snapshot returns, fills its map and
    leaves the other one as it was. *)
Lemma snapshot_returns before (w : W) maps :
  census_ok (gc_get_objects interp (gc_collect interp w)) = true ->
  exists maps',
    snapObjRefCntMap interp before w maps
    = Returned (gc_collect interp w, maps')
    /\ current before maps' <> []
    /\ current (negb before) maps' = current (negb before) maps.
Proof.
  unfold census_ok, snapObjRefCntMap. rewrite andb_true_iff. intros [Hall Hex].
  destruct (snap_loop_returns before _ (set_current before [] maps) Hall)
    as [maps' E].
  exists maps'. rewrite E. cbn. split; [done|]. split.
  - eapply snap_loop_nonempty; eauto.
  - rewrite (snap_loop_other _ _ _ _ E). apply other_set_current.
Qed.

End SnapshotFacts.

Section LoopFacts.

Context {W : Type} (interp : Interp W).
Context (checked_function : W -> W) (name : pystr).
Context (max_rounds : Z) (explain : bool).

Hypothesis Hclean : forall w, exc_info_clean interp w = true.
Hypothesis Htotal :
  forall w, exists total w',
    getTotalReferenceCount interp w = Returned (total, w').
Hypothesis Hcensus :
  explain = true -> forall w, census_ok (gc_get_objects interp w) = true.

Abbreviation round := (round interp checked_function max_rounds explain).
Abbreviation loop := (loop interp checked_function max_rounds explain).

(** The last round of an explained session takes a snapshot, which
    collects, before its first total and after its second one. *)
Abbreviation collected count w :=
  (if explain && (count =? max_rounds - 1) then gc_collect interp w else w).

(** A round takes the total, calls the probe and takes the total again;
    it logs the two totals, and leaves the loop exactly if they are
    equal. *)
Lemma round_spec count (st : State W) :
  exists a b w1 w2 st',
    getTotalReferenceCount interp (collected count (world st)) = Returned (a, w1)
    /\ getTotalReferenceCount interp (checked_function w1) = Returned (b, w2)
    /\ rounds st' = rounds st ++ [(a, b)]
    /\ ref_count1 st' = a /\ ref_count2 st' = b
    /\ ((a = b /\ round count st = Returned (inl st') /\ result st' = true
         /\ world st' = w2)
        \/ (a <> b /\ round count st = Returned (inr st')
            /\ result st' = result st
            /\ world st' = collected count w2
            /\ (explain = true -> count = max_rounds - 1 ->
                m1 (census st') <> [] /\ m2 (census st') <> []))).
Proof.
  unfold LeakDetector.round.
  destruct (explain && (count =? max_rounds - 1)) eqn:Elast.
  - apply andb_true_iff in Elast as [He _].
    destruct (snapshot_returns interp true (world st) (census st))
      as (maps1 & -> & Hm1 & _); [by apply Hcensus|].
    cbn [mbind outcome_bind].
    destruct (Htotal (gc_collect interp (world st))) as (a & w1 & E1).
    destruct (Htotal (checked_function w1)) as (b & w2 & E2).
    rewrite E1. cbn [mbind outcome_bind]. rewrite E2. cbn [mbind outcome_bind].
    rewrite Hclean. cbn [negb].
    exists a, b, w1, w2.
    destruct (Z.eqb_spec a b) as [->|Hne].
    + exists {| world := w2; census := maps1; ref_count1 := b; ref_count2 := b;
               result := true; rounds := rounds st ++ [(b, b)] |}.
      repeat split; try done. left. done.
    + destruct (snapshot_returns interp false w2 maps1)
        as (maps2 & -> & Hm2 & Hsame); [by apply Hcensus|].
      cbn [mbind outcome_bind].
      exists {| world := gc_collect interp w2; census := maps2; ref_count1 := a;
               ref_count2 := b; result := result st;
               rounds := rounds st ++ [(a, b)] |}.
      repeat split; try done. right. repeat split; try done.
      cbn in Hsame, Hm1 |- *. by rewrite Hsame.
  - cbn [mbind outcome_bind].
    destruct (Htotal (world st)) as (a & w1 & E1).
    destruct (Htotal (checked_function w1)) as (b & w2 & E2).
    rewrite E1. cbn [mbind outcome_bind]. rewrite E2. cbn [mbind outcome_bind].
    rewrite Hclean. cbn [negb].
    exists a, b, w1, w2.
    destruct (Z.eqb_spec a b) as [->|Hne].
    + exists {| world := w2; census := census st; ref_count1 := b; ref_count2 := b;
               result := true; rounds := rounds st ++ [(b, b)] |}.
      repeat split; try done. left. done.
    + cbn [mbind outcome_bind].
      exists {| world := w2; census := census st; ref_count1 := a; ref_count2 := b;
               result := result st; rounds := rounds st ++ [(a, b)] |}.
      repeat split; try done. right. split; [done|]. split; [done|].
      split; [done|]. split; [done|].
      intros He Hc. by rewrite He, Hc, Z.eqb_refl in Elast.
Qed.

(** The loop runs rounds until one measures equal totals, [todo] of them
    at most. [starts] holds the worlds in which the rounds take their first
    total: each round takes its second total after one call of the probe,
    and the next round starts where it ended. *)
Lemma loop_spec todo : forall count (st : State W),
  exists st' new starts,
    loop todo count st = Returned st'
    /\ rounds st' = rounds st ++ new
    /\ length starts = length new
    /\ (forall w0, starts !! 0%nat = Some w0 -> w0 = collected count (world st))
    /\ (forall r w_r a b,
          starts !! r = Some w_r -> new !! r = Some (a, b) ->
          exists w1 w2,
            getTotalReferenceCount interp w_r = Returned (a, w1)
            /\ getTotalReferenceCount interp (checked_function w1) = Returned (b, w2)
            /\ (forall w_next, starts !! S r = Some w_next ->
                  w_next = collected (count + Z.of_nat (S r))
                             (collected (count + Z.of_nat r) w2))
            /\ (S r = length new ->
                  world st'
                  = if a =? b then w2 else collected (count + Z.of_nat r) w2))
    /\ ((exists pre e, new = pre ++ [e]
           /\ Forall (fun e => fst e <> snd e) pre /\ fst e = snd e
           /\ result st' = true /\ (length new <= todo)%nat)
        \/ (Forall (fun e => fst e <> snd e) new /\ length new = todo
            /\ result st' = result st
            /\ (todo = 0%nat -> st' = st)
            /\ ((0 < todo)%nat ->
                (exists e, last new = Some e
                   /\ ref_count1 st' = fst e /\ ref_count2 st' = snd e)
                /\ (explain = true -> count + Z.of_nat todo = max_rounds ->
                    m1 (census st') <> [] /\ m2 (census st') <> [])))).
Proof.
  induction todo as [|todo IH]; intros count st; cbn [LeakDetector.loop].
  - exists st, [], []. rewrite app_nil_r.
    split; [done|]. split; [done|]. split; [done|]. split; [done|].
    split; [done|]. right. repeat split; try done; lia.
  - destruct (round_spec count st)
      as (a & b & w1 & w2 & st1 & E1 & E2 & Hr & H1 & H2 & Hcase).
    destruct Hcase as [(-> & -> & Hres & Hw)|(Hne & -> & Hres & Hw & Hmaps)];
      cbn [mbind outcome_bind].
    + exists st1, [(b, b)], [collected count (world st)].
      split; [done|]. split; [done|]. split; [done|].
      split; [by intros w0 [= <-]|]. split.
      * intros [|r] w_r a' b' Hs Hn; [|done].
        injection Hs as <-. injection Hn as <- <-.
        exists w1, w2. split; [done|]. split; [done|]. split; [done|].
        intros _. by rewrite Z.eqb_refl.
      * left. exists [], (b, b). repeat split; try done. cbn. lia.
    + destruct (IH (count + 1) st1)
        as (st' & new & starts & -> & Hr' & Hlen & Hhead & Htrace & Hcase').
      exists st', ((a, b) :: new), (collected count (world st) :: starts).
      split; [done|]. split; [by rewrite Hr', Hr, <- app_assoc|].
      split; [cbn; lia|]. split; [by intros w0 [= <-]|]. split.
      * intros [|r] w_r a' b' Hs Hn.
        -- injection Hs as <-. injection Hn as <- <-.
           exists w1, w2. split; [done|]. split; [done|]. split.
           ++ intros w_next Hnext. cbn in Hnext.
              rewrite (Hhead _ Hnext), Hw.
              change (Z.of_nat 0) with 0. change (Z.of_nat 1) with 1.
              by rewrite Z.add_0_r.
           ++ intros Hlast. cbn [length] in Hlast.
              destruct new as [|n new]; [|done].
              destruct (Z.eqb_spec a b); [done|].
              change (Z.of_nat 0) with 0. rewrite Z.add_0_r, <- Hw.
              destruct Hcase' as [(pre & e & Hnew & _)|(_ & Hl & _ & Hzero & _)].
              ** by destruct pre.
              ** cbn in Hl. by rewrite (Hzero (eq_sym Hl)).
        -- cbn in Hs, Hn.
           destruct (Htrace r w_r a' b' Hs Hn) as (v1 & v2 & T1 & T2 & Hnext & Hlast).
           exists v1, v2. split; [done|]. split; [done|]. split.
           ++ intros w_next Hn'. cbn in Hn'. rewrite (Hnext _ Hn').
              replace (count + Z.of_nat (S (S r))) with (count + 1 + Z.of_nat (S r))
                by lia.
              by replace (count + Z.of_nat (S r)) with (count + 1 + Z.of_nat r)
                by lia.
           ++ intros Hl. cbn [length] in Hl. rewrite Hlast by lia.
              by replace (count + Z.of_nat (S r)) with (count + 1 + Z.of_nat r)
                by lia.
      * destruct Hcase' as [(pre & e & -> & Hpre & He & Hres' & Hlen')
                           |(Hall & Hlen' & Hres' & Hzero & Hlast)].
        -- left. exists ((a, b) :: pre), e. repeat split; try done.
           ++ by constructor.
           ++ cbn [length] in *. lia.
        -- right. split; [by constructor|]. split; [cbn; lia|].
           split; [congruence|]. split; [done|]. intros _.
           destruct todo as [|todo].
           ++ destruct new; [|done]. rewrite (Hzero eq_refl) in *.
              split; [by exists (a, b)|].
              intros He Hc. apply Hmaps; [done | lia].
           ++ destruct Hlast as [(e & Hl & ? & ?) Hm]; [lia|]. split.
              ** exists e. split; [|done].
                 destruct new; [done|]. done.
              ** intros He Hc. apply Hm; [done | lia].
Qed.

End LoopFacts.

Section SessionFacts.

Context {W : Type} (interp : Interp W).
Context (checked_function : W -> W) (name : pystr).
Context (max_rounds : Z) (explain : bool).

Hypothesis Hmax : max_rounds > 0.
Hypothesis Hclean : forall w, exc_info_clean interp w = true.
Hypothesis Htotal :
  forall w, exists total w',
    getTotalReferenceCount interp w = Returned (total, w').
Hypothesis Hcensus :
  explain = true -> forall w, census_ok (gc_get_objects interp w) = true.

Abbreviation collected r w :=
  (if explain && (Z.of_nat r =? max_rounds - 1) then gc_collect interp w else w).

(** A session returns; the rounds it ran end with the first one that
    measured equal totals, or are all [max_rounds] without such a one;
    each round measured the total, called the probe and measured the total
    again, in the world the round before left. *)
Lemma session_spec (w : W) (maps : Maps) :
  exists v pre e starts,
    checkReferenceCount interp checked_function name max_rounds explain w maps
    = Returned v
    /\ rounds (final v) = pre ++ [e]
    /\ Forall (fun e => fst e <> snd e) pre
    /\ (length (pre ++ [e]) <= Z.to_nat max_rounds)%nat
    /\ length starts = length (rounds (final v))
    /\ starts !! 0%nat = Some (collected 0%nat w)
    /\ (forall r w_r a b,
          starts !! r = Some w_r -> rounds (final v) !! r = Some (a, b) ->
          exists w1 w2,
            getTotalReferenceCount interp w_r = Returned (a, w1)
            /\ getTotalReferenceCount interp (checked_function w1) = Returned (b, w2)
            /\ (forall w_next, starts !! S r = Some w_next ->
                  w_next = collected (S r) w2)
            /\ (S r = length (rounds (final v)) ->
                  world (final v)
                  = gc_collect interp (if a =? b then w2 else collected r w2)))
    /\ ((fst e = snd e /\ returned v = true
         /\ printed v = [name ++ lit ": "; lit "PASSED"])
        \/ (fst e <> snd e /\ returned v = false
            /\ length (pre ++ [e]) = Z.to_nat max_rounds
            /\ printed v
               = [name ++ lit ": ";
                  lit "FAILED " ++ decimal (fst e) ++ lit " "
                  ++ decimal (snd e) ++ lit " leaked "
                  ++ decimal (snd e - fst e)]
                 ++ (if explain
                     then lit "REPORT of differences:"
                          :: report_differences (m1 (census (final v)))
                               (m2 (census (final v)))
                     else []))).
Proof.
  unfold checkReferenceCount. rewrite Hclean. cbn [negb].
  destruct (Z.gtb_spec max_rounds 0) as [_|?]; [|lia]. cbn [negb].
  set (st0 := {| world := w; census := _; ref_count1 := 17; ref_count2 := 17;
                 result := false; rounds := [] |}).
  destruct (loop_spec interp checked_function max_rounds explain Hclean Htotal
              Hcensus (Z.to_nat max_rounds) 0 st0)
    as (st' & new & starts & -> & Hr & Hlen & Hhead & Htrace & Hcase).
  cbn [mbind outcome_bind]. cbn [rounds st0 app] in Hr.
  cbn [world st0] in Hhead.
  assert (forall final_world,
    final_world = gc_collect interp (world st') ->
    (length new <= Z.to_nat max_rounds)%nat ->
    (0 < length new)%nat ->
    starts !! 0%nat = Some (collected 0%nat w)
    /\ (forall r w_r a b,
          starts !! r = Some w_r -> new !! r = Some (a, b) ->
          exists w1 w2,
            getTotalReferenceCount interp w_r = Returned (a, w1)
            /\ getTotalReferenceCount interp (checked_function w1) = Returned (b, w2)
            /\ (forall w_next, starts !! S r = Some w_next ->
                  w_next = collected (S r) w2)
            /\ (S r = length new ->
                  final_world
                  = gc_collect interp (if a =? b then w2 else collected r w2))))
    as Hties.
  { intros final_world -> Hle Hpos. split.
    - destruct starts as [|w0 starts]; [cbn in Hlen; lia|].
      cbn. f_equal. by rewrite (Hhead w0 eq_refl).
    - intros r w_r a b Hs Hn.
      destruct (Htrace r w_r a b Hs Hn) as (w1 & w2 & T1 & T2 & Hnext & Hlast).
      exists w1, w2. split; [done|]. split; [done|]. split.
      + intros w_next Hnx. rewrite (Hnext _ Hnx). rewrite !Z.add_0_l.
        apply lookup_lt_Some in Hnx.
        destruct (Z.eqb_spec (Z.of_nat r) (max_rounds - 1)) as [Heq|_]; [lia|].
        by rewrite andb_false_r.
      + intros Hl. rewrite (Hlast Hl). by rewrite Z.add_0_l. }
  destruct Hcase as [(pre & e & -> & Hpre & He & Hres & Hlen')
                    |(Hall & Hlen' & Hres & _ & Hlast)].
  - rewrite Hres. cbn [mbind outcome_bind]. rewrite Hclean. cbn [negb].
    destruct (Hties _ eq_refl Hlen') as [Hh Ht]; [rewrite length_app; cbn; lia|].
    eexists _, pre, e, starts. split; [reflexivity|]. cbn.
    rewrite Hr. repeat split; try done. left. done.
  - destruct Hlast as [(e & Hl & H1 & H2) Hm]; [lia|].
    cbn [result st0] in Hres. rewrite Hres.
    assert (exists pre, new = pre ++ [e]) as [pre ->].
    { destruct new as [|x new _] using rev_ind; [done|].
      rewrite last_snoc in Hl. injection Hl as ->. by exists new. }
    destruct (Hties _ eq_refl) as [Hh Ht]; [lia | rewrite length_app; cbn; lia|].
    apply Forall_app in Hall as [Hpre He]. apply Forall_inv in He.
    destruct explain.
    + destruct Hm as [Hm1 Hm2]; [done | lia |].
      rewrite !bool_decide_eq_false_2 by done.
      cbn [mbind outcome_bind]. rewrite Hclean. cbn [negb].
      eexists _, pre, e, starts. split; [reflexivity|]. cbn.
      rewrite H1, H2, Hr. repeat split; try done; [lia|]. right.
      repeat split; try done.
    + cbn [mbind outcome_bind]. rewrite Hclean. cbn [negb].
      eexists _, pre, e, starts. split; [reflexivity|]. cbn.
      rewrite H1, H2, Hr. repeat split; try done; [lia|]. right.
      repeat split; try done.
Qed.

End SessionFacts.

(** C1, as the code has it. A session with [max_rounds > 0], in an
    interpreter in which no exception is pending, the totals can be taken
    and, when explaining, the census is in order, returns: it neither
    raises nor leaves the process. Its rounds are what the log holds: each
    round takes the total, calls the probe once in the world this leaves,
    and takes the total again, and the next round starts in the world this
    leaves ([starts] holds the worlds in which the rounds take their first
    total; the last round of an explained session collects first, for its
    snapshot). The session returns [True] exactly if one of its rounds
    measured the same total before and after the probe; such a round is the
    last one it ran, so it stopped at the first; and if it returns [False]
    it ran all [max_rounds] rounds and none measured equal totals. *)
Theorem leak_check_verdict :
  forall (W : Type) (interp : Interp W) (checked_function : W -> W)
         (name : pystr) (max_rounds : Z) (explain : bool) (w : W) (maps : Maps),
    let collected := fun (r : nat) (x : W) =>
      if explain && (Z.of_nat r =? max_rounds - 1) then gc_collect interp x
      else x in
    max_rounds > 0 ->
    (forall w, exc_info_clean interp w = true) ->
    (forall w, exists total w',
       getTotalReferenceCount interp w = Returned (total, w')) ->
    (explain = true -> forall w, census_ok (gc_get_objects interp w) = true) ->
    exists v starts,
      checkReferenceCount interp checked_function name max_rounds explain w maps
      = Returned v
      /\ length starts = length (rounds (final v))
      /\ starts !! 0%nat = Some (collected 0%nat w)
      /\ (forall r w_r a b,
            starts !! r = Some w_r -> rounds (final v) !! r = Some (a, b) ->
            exists w1 w2,
              getTotalReferenceCount interp w_r = Returned (a, w1)
              /\ getTotalReferenceCount interp (checked_function w1)
                 = Returned (b, w2)
              /\ (forall w_next, starts !! S r = Some w_next ->
                    w_next = collected (S r) w2))
      /\ (returned v = true <->
          exists r a, (r < Z.to_nat max_rounds)%nat
                      /\ rounds (final v) !! r = Some (a, a))
      /\ (forall r a, rounds (final v) !! r = Some (a, a) ->
          length (rounds (final v)) = S r)
      /\ (returned v = false ->
          length (rounds (final v)) = Z.to_nat max_rounds
          /\ Forall (fun e => fst e <> snd e) (rounds (final v))).
Proof.
  intros W interp checked_function name max_rounds explain w maps collected
    Hmax Hclean Htotal Hcensus.
  destruct (session_spec interp checked_function name max_rounds explain
              Hmax Hclean Htotal Hcensus w maps)
    as (v & pre & e & starts & Hv & Hr & Hpre & Hlen & Hstarts & Hhead & Htrace
        & Hcase).
  exists v, starts. split; [done|]. split; [done|]. split; [done|]. split.
  { intros r w_r a b Hs Hn.
    destruct (Htrace r w_r a b Hs Hn) as (w1 & w2 & T1 & T2 & Hnext & _).
    by exists w1, w2. }
  clear Hstarts Hhead Htrace. rewrite Hr.
  assert (forall r a, (pre ++ [e]) !! r = Some (a, a) ->
            r = length pre /\ e = (a, a)) as Hequal.
  { intros r a Hl. destruct (decide (r < length pre)%nat) as [Hlt|Hge].
    - rewrite lookup_app_l in Hl by done.
      rewrite Forall_lookup in Hpre. by destruct (Hpre _ _ Hl).
    - rewrite lookup_app_r in Hl by lia.
      destruct (r - length pre)%nat as [|n] eqn:En; [|by destruct n].
      injection Hl as ->. split; [lia | done]. }
  rewrite length_app in *. cbn [length] in *. split; [|split].
  - split.
    + intros Ht. destruct Hcase as [(He & _)|(_ & Hf & _)]; [|congruence].
      exists (length pre), (fst e). split; [lia|].
      rewrite lookup_app_r, Nat.sub_diag by lia. cbn.
      destruct e as [a b]; cbn in *. by subst.
    + intros (r & a & _ & Hl). destruct (Hequal _ _ Hl) as [_ ->].
      destruct Hcase as [(_ & Ht & _)|(Hne & _)]; [done | by destruct Hne].
  - intros r a Hl. destruct (Hequal _ _ Hl) as [-> _]. lia.
  - intros Hf. destruct Hcase as [(_ & Ht & _)|(Hne & _ & Hn & _)]; [congruence|].
    split; [done|]. apply Forall_app. split; [done | by constructor].
Qed.

Lemma leak_check_verdict_witness :
  exists v (starts : list Z),
    checkReferenceCount leaking_debug retain_one (lit "simpleFunction1") 2 true
      0 no_maps
    = Returned v
    /\ starts !! 0%nat = Some 0
    /\ (forall a b, rounds (final v) !! 0%nat = Some (a, b) ->
        exists w1 w2,
          getTotalReferenceCount leaking_debug 0 = Returned (a, w1)
          /\ getTotalReferenceCount leaking_debug (retain_one w1)
             = Returned (b, w2))
    /\ (returned v = false ->
        length (rounds (final v)) = Z.to_nat 2
        /\ Forall (fun e => fst e <> snd e) (rounds (final v))).
Proof.
  destruct (leak_check_verdict Z leaking_debug retain_one (lit "simpleFunction1")
              2 true 0 no_maps)
    as (v & starts & Hv & _ & Hhead & Htrace & _ & _ & Hf).
  - lia.
  - intros w. reflexivity.
  - intros w. exists (9 + w), w. reflexivity.
  - intros _ w. reflexivity.
  - exists v, starts. split; [exact Hv|]. split; [exact Hhead|].
    split; [|exact Hf].
    intros a b Hl. destruct (Htrace 0%nat 0 a b Hhead Hl) as (w1 & w2 & T1 & T2 & _).
    exists w1, w2. split; [exact T1 | exact T2].
Defined.

(** C1, refuted as stated: not every probe gives a session that
    returns. A probe that keeps a reference and leaves an exception pending
    makes the first round measure 100 and 101, and the session raise
    [AssertionError] there; and with [explain], a live object whose [str]
    raises makes the snapshot of the last round, and the session, raise. *)
Lemma leak_check_can_raise :
  (getTotalReferenceCount haunted 100 = Returned (100, 100)
   /\ getTotalReferenceCount haunted (leak_one 100) = Returned (101, 101)
   /\ exc_info_clean haunted 100 = true
   /\ exc_info_clean haunted (leak_one 100) = false
   /\ checkReferenceCount haunted leak_one (lit "simpleFunction5") 20 false 100
        no_maps
      = Raised AssertionError)
  /\ (let mute :=
        {| obj_identity := IsOther 5; obj_kind := KObject None;
           obj_refcount := 1 |} in
      key_of mute = Raised StrError
      /\ snapObjRefCntMap heap true [module_main; mute] no_maps = Raised StrError
      /\ checkReferenceCount heap swap_a_for_leak (lit "simpleFunction6") 1 true
           [module_main; mute] no_maps
         = Raised StrError).
Proof. split; by vm_compute. Qed.

(** C3, as the code has it. A session runs a round per call of the
    probe: each round takes the total, calls the probe once and takes the
    total again, the next round starts in the world this leaves, and the
    session ends in the world its last round leaves, collected ([starts]
    holds the worlds in which the rounds take their first total). It runs
    at least one round and [max_rounds] at most, and stops after the first
    round that measures equal totals; it runs all [max_rounds] rounds
    exactly if none of the rounds before the last measures equal totals, as
    is the case whenever it returns [False]. *)
Theorem leak_check_round_count :
  forall (W : Type) (interp : Interp W) (checked_function : W -> W)
         (name : pystr) (max_rounds : Z) (explain : bool) (w : W) (maps : Maps),
    let collected := fun (r : nat) (x : W) =>
      if explain && (Z.of_nat r =? max_rounds - 1) then gc_collect interp x
      else x in
    max_rounds > 0 ->
    (forall w, exc_info_clean interp w = true) ->
    (forall w, exists total w',
       getTotalReferenceCount interp w = Returned (total, w')) ->
    (explain = true -> forall w, census_ok (gc_get_objects interp w) = true) ->
    exists v starts,
      checkReferenceCount interp checked_function name max_rounds explain w maps
      = Returned v
      /\ length starts = length (rounds (final v))
      /\ starts !! 0%nat = Some (collected 0%nat w)
      /\ (forall r w_r a b,
            starts !! r = Some w_r -> rounds (final v) !! r = Some (a, b) ->
            exists w1 w2,
              getTotalReferenceCount interp w_r = Returned (a, w1)
              /\ getTotalReferenceCount interp (checked_function w1)
                 = Returned (b, w2)
              /\ (forall w_next, starts !! S r = Some w_next ->
                    w_next = collected (S r) w2)
              /\ (S r = length (rounds (final v)) ->
                    world (final v)
                    = gc_collect interp
                        (if a =? b then w2 else collected r w2)))
      /\ (1 <= length (rounds (final v)) <= Z.to_nat max_rounds)%nat
      /\ (forall r a, rounds (final v) !! r = Some (a, a) ->
          length (rounds (final v)) = S r)
      /\ (length (rounds (final v)) = Z.to_nat max_rounds <->
          forall r a b, (S r < Z.to_nat max_rounds)%nat ->
                        rounds (final v) !! r = Some (a, b) -> a <> b)
      /\ (returned v = false ->
          length (rounds (final v)) = Z.to_nat max_rounds).
Proof.
  intros W interp checked_function name max_rounds explain w maps collected
    Hmax Hclean Htotal Hcensus.
  destruct (session_spec interp checked_function name max_rounds explain
              Hmax Hclean Htotal Hcensus w maps)
    as (v & pre & e & starts & Hv & Hr & Hpre & Hlen & Hstarts & Hhead & Htrace
        & Hcase).
  exists v, starts. split; [done|]. split; [done|]. split; [done|].
  split; [exact Htrace|].
  clear Hstarts Hhead Htrace. rewrite Hr.
  rewrite length_app in *. cbn [length] in *.
  split; [lia|]. split; [|split; [split|]].
  - intros r a Hl. destruct (decide (r < length pre)%nat) as [Hlt|Hge].
    + rewrite lookup_app_l in Hl by done.
      rewrite Forall_lookup in Hpre. by destruct (Hpre _ _ Hl).
    + rewrite lookup_app_r in Hl by lia.
      destruct (r - length pre)%nat as [|n] eqn:En; [lia | by destruct n].
  - intros Hn r a b Hlt Hl. rewrite lookup_app_l in Hl by lia.
    rewrite Forall_lookup in Hpre. apply (Hpre _ _ Hl).
  - intros Hall. destruct Hcase as [(He & _)|(_ & _ & Hn & _)]; [|done].
    destruct (decide (length pre + 1 = Z.to_nat max_rounds)%nat); [done|].
    destruct (Hall (length pre) (fst e) (snd e)); [lia | | done].
    rewrite lookup_app_r, Nat.sub_diag by lia. by destruct e.
  - intros Hf. destruct Hcase as [(_ & Ht & _)|(_ & _ & Hn & _)]; [congruence | done].
Qed.

Lemma leak_check_round_count_witness :
  exists v (starts : list Z),
    checkReferenceCount counter leak_one (lit "simpleFunction2") 3 false 100 no_maps
    = Returned v
    /\ starts !! 0%nat = Some 100
    /\ (forall a b, rounds (final v) !! 0%nat = Some (a, b) ->
        exists w1 w2,
          getTotalReferenceCount counter 100 = Returned (a, w1)
          /\ getTotalReferenceCount counter (leak_one w1) = Returned (b, w2))
    /\ (1 <= length (rounds (final v)) <= Z.to_nat 3)%nat.
Proof.
  destruct (leak_check_round_count Z counter leak_one (lit "simpleFunction2") 3 false
              100 no_maps)
    as (v & starts & Hv & _ & Hhead & Htrace & Hlen & _).
  - lia.
  - intros w. reflexivity.
  - intros w. exists w, w. reflexivity.
  - intros H. discriminate H.
  - exists v, starts. split; [exact Hv|]. split; [exact Hhead|].
    split; [|exact Hlen].
    intros a b Hl. destruct (Htrace 0%nat 100 a b Hhead Hl) as (w1 & w2 & T1 & T2 & _).
    exists w1, w2. split; [exact T1 | exact T2].
Defined.

(** C3, refuted as stated: a probe that leaves the total as it is makes a
    session of 20 rounds return after the first. *)
Lemma leak_check_stops_after_first_round :
  exists v,
    checkReferenceCount counter no_leak (lit "simpleFunction3") 20 false 100 no_maps
    = Returned v
    /\ returned v = true
    /\ rounds (final v) = [(100, 100)]
    /\ length (rounds (final v)) <> Z.to_nat 20.
Proof.
  eexists. split; [by vm_compute|]. by vm_compute.
Qed.

Section ReportFacts.

(** What the report prints for a key, by the maps that hold it. *)
Lemma report_differences_lines (m1 m2 : dict) (key : pystr) :
  (forall c1, Dict.get key m1 = Some c1 -> Dict.get key m2 = None ->
     In (lit "extra: " ++ decimal c1 ++ lit " " ++ key)
        (report_differences m1 m2))
  /\ (forall c2, Dict.get key m1 = None -> Dict.get key m2 = Some c2 ->
     In (lit "missing: " ++ decimal c2 ++ lit " " ++ key)
        (report_differences m1 m2))
  /\ (forall c1 c2, Dict.get key m1 = Some c1 -> Dict.get key m2 = Some c2 ->
     c1 <> c2 ->
     In (decimal c1 ++ lit " -> " ++ decimal c2 ++ lit " " ++ key)
        (report_differences m1 m2)).
Proof.
  unfold report_differences. repeat split.
  - intros c1 H1 H2. apply in_or_app. left. apply in_flat_map.
    exists (key, c1). split; [by apply dict_get_In|].
    cbn [report_m1_key]. rewrite H2. right. by left.
  - intros c2 H1 H2. apply in_or_app. right. apply in_flat_map.
    exists (key, c2). split; [by apply dict_get_In|].
    cbn [report_m2_key]. unfold Dict.contains. rewrite H1. right. by left.
  - intros c1 c2 H1 H2 Hne. apply in_or_app. left. apply in_flat_map.
    exists (key, c1). split; [by apply dict_get_In|].
    cbn [report_m1_key]. rewrite H2.
    destruct (Z.eqb_spec c1 c2); [done|]. right. by left.
Qed.

End ReportFacts.

(** C2, on a probe that lets go of the object "a" and keeps a new object
    "leak", with one round and [explain] set. The snapshot before the probe
    holds "a" and not "leak", the one after holds "leak" and not "a". The
    report prints the key of the after-round snapshot alone, "leak", under
    "missing:", and the key of the before-round snapshot alone, "a", under
    "extra:". *)
Theorem leak_report_of_swapped_objects :
  exists v,
    checkReferenceCount heap swap_a_for_leak (lit "simpleFunction4") 1 true
      heap0 no_maps
    = Returned v
    /\ returned v = false
    /\ snapObjRefCntMap heap true heap0 no_maps
       = Returned (heap0, {| m1 := m1 (census (final v)); m2 := [] |})
    /\ snapObjRefCntMap heap false (swap_a_for_leak heap0)
         {| m1 := m1 (census (final v)); m2 := [] |}
       = Returned (swap_a_for_leak heap0, census (final v))
    /\ Dict.get (lit "a") (m1 (census (final v))) = Some 2
    /\ Dict.get (lit "a") (m2 (census (final v))) = None
    /\ Dict.get (lit "leak") (m1 (census (final v))) = None
    /\ Dict.get (lit "leak") (m2 (census (final v))) = Some 3
    /\ printed v
       = [ lit "simpleFunction4: "; lit "FAILED 11 12 leaked 1";
           lit "REPORT of differences:";
           stars; lit "extra: 2 a";
           stars; lit "missing: 3 leak" ].
Proof.
  eexists. split; [by vm_compute|]. by vm_compute.
Qed.

Section ComparisonFacts.

Lemma run_bind_returned {A B : Type} (log : list event) (a : A) (k : A -> run B) :
  run_bind (log, Returned a) k = (log ++ fst (k a), snd (k a)).
Proof. cbn. by destruct (k a). Qed.


Lemma cleanup_returned nt t :
  snd (removeCPythonTestSuiteDir nt t) = Returned tt ->
  removeCPythonTestSuiteDir nt t
  = (fst (removeCPythonTestSuiteDir nt t), Returned tt).
Proof. destruct (removeCPythonTestSuiteDir nt t) as [l o]. cbn. by intros ->. Qed.





Variables (search_mode : SearchMode).
Variables (on_error : option (option pystr -> pystr -> outcome unit)).
Variables (dirname : option pystr) (filename : pystr).



End ComparisonFacts.




(** * Further properties *)

(** ** Test selection by file name *)

Section VersionFacts.

Import Versions.

Implicit Types v c : list Z.

Lemma startswith_app_le (p s t : pystr) :
  (length p <= length s)%nat ->
  Py.startswith p (s ++ t) = Py.startswith p s.
Proof.
  revert s. induction p as [|x p IH]; intros s Hlen; [by rewrite !startswith_nil|].
  destruct s as [|y s]; cbn [length] in Hlen; [lia|].
  cbn [app Py.startswith]. rewrite IH by lia. done.
Qed.

Lemma endswith_app (pre suffix : pystr) : endswith suffix (pre ++ suffix) = true.
Proof. unfold endswith. rewrite reverse_app. apply startswith_app. Qed.

(** A suffix no longer than the end of the name is looked for in that end
    alone. *)
Lemma endswith_app_r (suffix pre tail : pystr) :
  (length suffix <= length tail)%nat ->
  endswith suffix (pre ++ tail) = endswith suffix tail.
Proof.
  intros Hlen. unfold endswith. rewrite reverse_app.
  apply startswith_app_le. by rewrite !length_reverse.
Qed.

Lemma tuple_ltb_irrefl v : tuple_ltb v v = false.
Proof.
  induction v as [|x v IH]; cbn; [done|].
  by rewrite IH, Z.ltb_irrefl, Z.eqb_refl.
Qed.

Lemma tuple_ltb_trans v : forall c d,
  tuple_ltb v c = true -> tuple_ltb c d = true -> tuple_ltb v d = true.
Proof.
  induction v as [|x v IH]; intros [|y c] [|z d]; cbn; try done.
  rewrite !orb_true_iff, !andb_true_iff, !Z.ltb_lt, !Z.eqb_eq.
  intros [?|[ -> ?]] [?|[ -> ?]]; [left; lia | by left | by left |].
  right. split; [done|]. by eapply IH.
Qed.

Lemma tuple_ltb_trichotomy v : forall c,
  tuple_ltb v c = true \/ v = c \/ tuple_ltb c v = true.
Proof.
  induction v as [|x v IH]; intros [|y c]; cbn; auto.
  rewrite !orb_true_iff, !andb_true_iff, !Z.ltb_lt, !Z.eqb_eq.
  destruct (Z.lt_trichotomy x y) as [?|[ ->|?]]; [auto | | auto].
  destruct (IH c) as [?|[ ->|?]]; auto.
Qed.

(** A version not below [v] is not below what [v] is not below. *)
Lemma tuple_not_below v v' c :
  tuple_ltb v' v = false -> tuple_ltb v c = false -> tuple_ltb v' c = false.
Proof.
  intros Hle Hc. destruct (tuple_ltb v' c) eqn:E; [|done].
  destruct (tuple_ltb_trichotomy v c) as [?|[ ->|Hcv]]; [congruence | congruence |].
  pose proof (tuple_ltb_trans _ _ _ E Hcv). congruence.
Qed.

End VersionFacts.

Import Versions.

(** X1. For a file name without the endings "_2.py" and "_37.py", which
    set a highest version, the decision to run the file carries over to every
    version that is not lower. *)
Theorem version_skip_monotone :
  forall (v v' : list Z) (filename : pystr),
    tuple_ltb v' v = false ->
    endswith (lit "_2.py") (strip_j2 filename) = false ->
    endswith (lit "_37.py") (strip_j2 filename) = false ->
    decideFilenameVersionSkip v filename = true ->
    decideFilenameVersionSkip v' filename = true.
Proof.
  intros v v' filename Hle H2 H37. unfold decideFilenameVersionSkip.
  destruct (Py.startswith (lit "run_") filename); [done|].
  rewrite H2, H37. clear H2 H37. cbn [andb].
  repeat (destruct (endswith _ (strip_j2 filename)); cbn [andb];
          [let E := fresh "E" in
           destruct (tuple_ltb v _) eqn:E; [done|];
           rewrite (tuple_not_below _ _ _ Hle E); clear E|]).
  all: done.
Qed.

Lemma version_skip_monotone_witness :
  decideFilenameVersionSkip [3; 6; 1] (lit "Classes34.py") = true
  /\ decideFilenameVersionSkip [3; 9; 0] (lit "Classes34.py") = true.
Proof.
  split; [vm_compute; reflexivity|].
  apply (version_skip_monotone [3; 6; 1] [3; 9; 0] (lit "Classes34.py"));
    vm_compute; reflexivity.
Defined.

(** X2. A file whose name ends in "_37.py" and does not start with "run_"
    is run under the versions 3.7.x and under no other: from 3.8.0 on the
    version tuple is above (3, 8). *)
Theorem version_skip_37_only :
  forall (pre : pystr) (major minor micro : Z),
    Py.startswith (lit "run_") (pre ++ lit "_37.py") = false ->
    (decideFilenameVersionSkip [major; minor; micro] (pre ++ lit "_37.py") = true
     <-> major = 3 /\ minor = 7).
Proof.
  intros pre major minor micro Hrun. unfold decideFilenameVersionSkip, strip_j2.
  rewrite Hrun.
  repeat match goal with
  | |- context [endswith ?s (pre ++ ?t)] =>
      rewrite (endswith_app_r s pre t) by (vm_compute; lia);
      let b := eval vm_compute in (endswith s t) in
      change (endswith s t) with b; cbv iota
  end.
  cbn [andb tuple_ltb tuple_gtb].
  destruct (Z.ltb_spec major 3), (Z.eqb_spec major 3), (Z.ltb_spec 3 major),
    (Z.eqb_spec 3 major), (Z.ltb_spec minor 7), (Z.eqb_spec minor 7),
    (Z.ltb_spec 8 minor), (Z.eqb_spec 8 minor); cbn; split; intros; try lia; done.
Qed.

Lemma version_skip_37_only_witness :
  decideFilenameVersionSkip [3; 7; 4] (lit "Async" ++ lit "_37.py") = true
  <-> 3 = 3 /\ 7 = 7.
Proof.
  apply (version_skip_37_only (lit "Async") 3 7 4). vm_compute. reflexivity.
Defined.

(** X3. A template is decided like the file it is rendered to: the ending
    ".j2" does not count. *)
Theorem version_skip_of_template :
  forall (v : list Z) (filename : pystr),
    endswith (lit ".j2") filename = false ->
    decideFilenameVersionSkip v (filename ++ lit ".j2")
    = decideFilenameVersionSkip v filename.
Proof.
  intros v filename Hj2. unfold decideFilenameVersionSkip.
  assert (Py.startswith (lit "run_") (filename ++ lit ".j2")
          = Py.startswith (lit "run_") filename) as ->.
  { eval_lit "run_"%string. eval_lit ".j2"%string.
    destruct filename as [|a [|b [|c [|d filename]]]]; cbn [app Py.startswith];
      rewrite ?andb_true_r, ?andb_false_r; try done.
    all: by destruct (N.eqb_spec 114 a) as [<-|]. }
  assert (strip_j2 (filename ++ lit ".j2") = strip_j2 filename) as ->; [|done].
  unfold strip_j2. rewrite endswith_app, Hj2.
  unfold Py.slice_to, Py.clamp. rewrite length_app. cbn [Z.ltb Z.compare].
  replace (Z.to_nat _) with (length filename); [by rewrite take_app_length|].
  replace (length (lit ".j2")) with 3%nat by (by vm_compute). lia.
Qed.

Lemma version_skip_of_template_witness :
  decideFilenameVersionSkip [3; 6; 1] (lit "Generated38.py" ++ lit ".j2")
  = decideFilenameVersionSkip [3; 6; 1] (lit "Generated38.py").
Proof.
  apply (version_skip_of_template [3; 6; 1] (lit "Generated38.py")).
  vm_compute. reflexivity.
Defined.

Import CompileCheck.

(** X4. checkCompilesNotWithCPython calls the compiler once. With a
    status other than 1 and 2 (status 0 among them) it asks [abortOnFinding]
    and, on the answer to abort, tells [onErrorDetected] the status; with
    status 1 or 2 it returns and asks nothing. A keyboard interrupt counts as
    status 2: the function returns, it does not leave the process. *)
Theorem compile_check_policy :
  forall (env : Env) (python_executable : pystr) (dirname : option pystr)
         (filename : pystr) (search_mode : SearchMode),
    let r := checkCompilesNotWithCPython env python_executable dirname filename
               search_mode in
    exists command,
      match subprocess_call env command with
      | ExitCode status =>
          let message := lit "Error exit! " ++ decimal status in
          if decide (status = 1 \/ status = 2) then
            r = ([Call command], Returned tt)
          else if abortOnFinding search_mode dirname filename then
            r = ([Call command; AbortOnFinding dirname filename;
                  OnErrorDetected message],
                 onErrorDetected search_mode message)
          else
            r = ([Call command; AbortOnFinding dirname filename], Returned tt)
      | KeyboardInterrupt => r = ([Call command], Returned tt)
      | CallRaises e => r = ([Call command], Raised e)
      end.
Proof.
  intros env python_executable dirname filename search_mode. cbv zeta.
  unfold checkCompilesNotWithCPython.
  set (path := match dirname with None => _ | Some _ => _ end).
  exists [python_executable; lit "-mcompileall"; path].
  destruct (subprocess_call env _) as [status| |e];
    unfold emit, wait, run_ret, lift; cbn [run_bind app].
  - destruct (decide (status = 1 \/ status = 2)) as [[ ->| ->]|Hne]; [done..|].
    destruct (Z.eqb_spec status 1); [lia|].
    destruct (Z.eqb_spec status 2); [lia|]. cbn [negb andb].
    destruct (abortOnFinding search_mode dirname filename); [|done].
    by destruct (onErrorDetected search_mode _) as [[]| |].
  - done.
  - done.
Qed.

(** ** indentedCode *)

Section IndentFacts.

Import Indent.

Lemma split_unit_none c (s : pystr) :
  Forall (fun x => x <> c) s -> Py.split_unit c s = [s].
Proof.
  induction 1 as [|x s Hx _ IH]; [done|].
  cbn [Py.split_unit]. apply N.eqb_neq in Hx. by rewrite Hx, IH.
Qed.

Lemma split_unit_app c (p s : pystr) :
  Forall (fun x => x <> c) p ->
  Py.split_unit c (p ++ c :: s) = p :: Py.split_unit c s.
Proof.
  induction 1 as [|x p Hx _ IH]; cbn [app Py.split_unit].
  - by rewrite N.eqb_refl.
  - apply N.eqb_neq in Hx. by rewrite Hx, IH.
Qed.

(** Splitting at the separator undoes joining with it. *)
Lemma split_unit_join c (parts : list pystr) :
  parts <> [] ->
  Forall (Forall (fun x => x <> c)) parts ->
  Py.split_unit c (Py.join [c] parts) = parts.
Proof.
  intros Hne Hall. induction Hall as [|p parts Hp Hparts IH]; [done|].
  destruct parts as [|q parts].
  - cbn [Py.join]. by apply split_unit_none.
  - change (Py.join [c] (p :: q :: parts))
      with (p ++ c :: Py.join [c] (q :: parts)).
    rewrite split_unit_app by done. by rewrite IH.
Qed.

Lemma indent_line_no_newline count (line : pystr) :
  Forall (fun x => x <> newline) line ->
  Forall (fun x => x <> newline) (indent_line count line).
Proof.
  intros Hl. unfold indent_line. destruct (Py.eqb line []); cbn [negb]; [done|].
  apply Forall_app. split; [|done].
  unfold spaces, Py.repeat_unit. apply Forall_replicate. by vm_compute.
Qed.

Lemma indent_line_twice a b (line : pystr) :
  0 <= a -> 0 <= b ->
  indent_line b (indent_line a line) = indent_line (a + b) line.
Proof.
  intros Ha Hb. unfold indent_line.
  destruct (Py.eqb line []) eqn:E; cbn [negb]; [done|].
  apply eqb_false_iff in E.
  assert (Py.eqb (spaces a ++ line) [] = false) as ->.
  { apply eqb_false_iff. intros H. apply app_eq_nil in H as [_ ?]. done. }
  cbn [negb]. rewrite app_assoc. f_equal.
  unfold spaces, Py.repeat_unit. rewrite <- replicate_add. f_equal. lia.
Qed.

End IndentFacts.

Import Indent.

(** X5. For lines without a newline, and at least one of them, the
    indented text split at its newlines gives the lines again, one for one:
    an empty line stays empty, any other line stands behind [count]
    spaces. *)
Theorem indented_code_lines :
  forall (codes : list pystr) (count : Z),
    codes <> [] ->
    Forall (Forall (fun x => x <> newline)) codes ->
    Py.split_unit newline (indentedCode codes count)
    = map (fun line => if Py.eqb line [] then [] else spaces count ++ line) codes.
Proof.
  intros codes count Hne Hall. unfold indentedCode.
  rewrite split_unit_join.
  - apply map_ext. intros line. unfold indent_line. by destruct (Py.eqb line []).
  - by destruct codes.
  - apply Forall_fmap. eapply Forall_impl; [exact Hall|].
    intros line Hl. by apply indent_line_no_newline.
Qed.

Lemma indented_code_lines_witness :
  Py.split_unit newline (indentedCode [lit "try:"; []; lit "    x = 1"] 4)
  = [lit "    try:"; []; lit "        x = 1"].
Proof.
  rewrite (indented_code_lines [lit "try:"; []; lit "    x = 1"] 4).
  - vm_compute. reflexivity.
  - discriminate.
  - repeat constructor; vm_compute; discriminate.
Defined.

(** X6. Indenting twice is indenting by the sum: the text indented by
    [a], split into its lines and indented by [b], is the text indented by
    [a + b]. *)
Theorem indented_code_twice :
  forall (codes : list pystr) (a b : Z),
    0 <= a -> 0 <= b ->
    Forall (Forall (fun x => x <> newline)) codes ->
    indentedCode (Py.split_unit newline (indentedCode codes a)) b
    = indentedCode codes (a + b).
Proof.
  intros codes a b Ha Hb Hall.
  destruct codes as [|line codes]; [done|].
  unfold indentedCode at 2. rewrite split_unit_join.
  - unfold indentedCode. rewrite map_map. f_equal.
    apply map_ext. intros l. by apply indent_line_twice.
  - done.
  - apply Forall_fmap. eapply Forall_impl; [exact Hall|].
    intros l Hl. by apply indent_line_no_newline.
Qed.

Lemma indented_code_twice_witness :
  indentedCode (Py.split_unit newline (indentedCode [lit "a"; []; lit "b"] 4)) 2
  = indentedCode [lit "a"; []; lit "b"] (4 + 2).
Proof.
  apply (indented_code_twice [lit "a"; []; lit "b"] 4 2).
  - lia.
  - lia.
  - repeat constructor; vm_compute; discriminate.
Defined.

(** ** The process environment *)

Section EnvironFacts.

Import Environ.

Lemma join_cons sep (p : pystr) (rest : list pystr) :
  rest <> [] -> Py.join sep (p :: rest) = p ++ sep ++ Py.join sep rest.
Proof. by destruct rest. Qed.

Lemma join_cons_nonempty sep (p : pystr) (rest : list pystr) :
  p <> [] -> Py.join sep (p :: rest) <> [].
Proof.
  intros Hp. destruct rest; cbn [Py.join]; [done|].
  intros H. by apply app_eq_nil in H as [? _].
Qed.

Lemma fold_extend_some (args : list pystr) : forall v,
  fold_left extend args (Some v) = Some (Py.join space (v :: args)).
Proof.
  induction args as [|a args IH]; intros v; cbn [fold_left extend]; [done|].
  rewrite IH. f_equal. destruct args as [|b args]; cbn [Py.join]; [done|].
  by rewrite <- !app_assoc.
Qed.

(** The loop of [addExtendedExtraOptions] joins the old value, if there is
    one, and the arguments with spaces. *)
Lemma fold_extend (args : list pystr) (old_value : option pystr) :
  fold_left extend args old_value
  = match option_list old_value ++ args with
    | [] => None
    | words => Some (Py.join space words)
    end.
Proof.
  destruct old_value as [v|]; cbn [option_list app].
  - apply fold_extend_some.
  - destruct args as [|a args]; [done|]. cbn [fold_left extend].
    apply fold_extend_some.
Qed.

Lemma split_unit_nonempty c (s : pystr) : Py.split_unit c s <> [].
Proof.
  destruct s as [|x s]; cbn [Py.split_unit]; [done|].
  destruct (N.eqb x c); [done|]. by destruct (Py.split_unit c s).
Qed.

Lemma normpath_nonempty (path : pystr) : normpath path <> [].
Proof.
  unfold normpath. destruct (Py.eqb path []); [by vm_compute|].
  cbv zeta. destruct (Py.eqb _ []) eqn:E; [by vm_compute|].
  by apply eqb_false_iff in E.
Qed.

(** What [withPythonPathChange] puts on the path is never the empty
    string, so the test of [python_path] after the [yield] comes out as
    the one before it. *)
Lemma normalized_path_nonempty cwd (python_path : path_arg) :
  truthy python_path = true -> normalized_path cwd python_path <> [].
Proof.
  unfold normalized_path. intros Ht.
  assert (match python_path with
          | PathNone => []
          | PathStr s => Py.split_unit pathsep s
          | PathList l => l
          end <> []) as Hne.
  { destruct python_path as [|s|l]; [done| |].
    - apply split_unit_nonempty.
    - cbn in Ht. by destruct l. }
  destruct (match python_path with PathNone => _ | _ => _ end) as [|e l]; [done|].
  cbn [map]. apply join_cons_nonempty, normpath_nonempty.
Qed.

End EnvironFacts.

Import Environ.

(** X7. [addExtendedExtraOptions] sets the variable to the old value, if
    there is one, and the arguments, joined by single spaces, and returns
    the old value; without an old value and without arguments it fails
    with a [TypeError] and sets nothing. *)
Theorem extended_options_are_joined :
  forall (setitem_check : pystr -> option error) (args : list pystr)
         (env : environ),
    let old_value := env !! NUITKA_EXTRA_OPTIONS in
    let words := option_list old_value ++ args in
    (words = [] ->
     addExtendedExtraOptions setitem_check args env = (env, Fails TypeError))
    /\ (words <> [] ->
        setitem_check (Py.join space words) = None ->
        addExtendedExtraOptions setitem_check args env
        = (<[NUITKA_EXTRA_OPTIONS := Py.join space words]> env, Done old_value)).
Proof.
  intros setitem_check args env old_value words.
  unfold addExtendedExtraOptions, setitem. rewrite fold_extend.
  fold old_value. fold words. split.
  - by intros ->.
  - intros Hne Hok. destruct words as [|w words]; [done|]. by rewrite Hok.
Qed.

Lemma extended_options_are_joined_witness :
  addExtendedExtraOptions (fun _ => None) [lit "--debug"; lit "--lto"]
    {[ NUITKA_EXTRA_OPTIONS := lit "--show-scons" ]}
  = (<[NUITKA_EXTRA_OPTIONS := lit "--show-scons --debug --lto"]>
       {[ NUITKA_EXTRA_OPTIONS := lit "--show-scons" ]},
     Done (Some (lit "--show-scons"))).
Proof.
  destruct (extended_options_are_joined (fun _ => None)
              [lit "--debug"; lit "--lto"]
              {[ NUITKA_EXTRA_OPTIONS := lit "--show-scons" ]}) as [_ H].
  rewrite H.
  - reflexivity.
  - discriminate.
  - reflexivity.
Defined.

(** X8. A [with withExtendedExtraOptions(...)] statement whose body
    returns puts the variable back: after it the variable is what it was
    before, set or not, and every other variable is as the body left
    it. *)
Theorem extra_options_restored :
  forall (setitem_check : pystr -> option error) (A : Type)
         (args : list pystr) (body : action A) (env env2 : environ) (a : A),
    let words := option_list (env !! NUITKA_EXTRA_OPTIONS) ++ args in
    args <> [] ->
    setitem_check (Py.join space words) = None ->
    (forall v, env !! NUITKA_EXTRA_OPTIONS = Some v -> setitem_check v = None) ->
    body (<[NUITKA_EXTRA_OPTIONS := Py.join space words]> env) = (env2, Done a) ->
    (env !! NUITKA_EXTRA_OPTIONS = None -> is_Some (env2 !! NUITKA_EXTRA_OPTIONS)) ->
    exists env3,
      withExtendedExtraOptions setitem_check args body env = (env3, Done a)
      /\ env3 !! NUITKA_EXTRA_OPTIONS = env !! NUITKA_EXTRA_OPTIONS
      /\ forall k, k <> NUITKA_EXTRA_OPTIONS -> env3 !! k = env2 !! k.
Proof.
  intros setitem_check A args body env env2 a words Hargs Hok Hold Hbody Hkept.
  unfold withExtendedExtraOptions, addExtendedExtraOptions.
  rewrite bool_decide_eq_false_2 by done.
  unfold setitem at 1. rewrite fold_extend. fold words.
  assert (words <> []) as Hne.
  { unfold words. intros H. by apply app_eq_nil in H as [_ ?]. }
  destruct words as [|w words'] eqn:Ew; [done|]. rewrite Hok, Hbody.
  destruct (env !! NUITKA_EXTRA_OPTIONS) as [v|] eqn:Ev.
  - unfold setitem. rewrite (Hold v eq_refl).
    exists (<[NUITKA_EXTRA_OPTIONS := v]> env2). split; [done|]. split.
    + apply lookup_insert_eq.
    + intros k Hk. by apply lookup_insert_ne.
  - unfold delitem. destruct (Hkept eq_refl) as [v2 ->].
    exists (delete NUITKA_EXTRA_OPTIONS env2). split; [done|]. split.
    + apply lookup_delete_eq.
    + intros k Hk. by apply lookup_delete_ne.
Qed.

Lemma extra_options_restored_witness :
  let env : environ := {[ NUITKA_EXTRA_OPTIONS := lit "--lto" ]} in
  let body : action Z := fun env => (<[lit "LANG" := lit "C"]> env, Done 0) in
  let env2 : environ :=
    <[lit "LANG" := lit "C"]> (<[NUITKA_EXTRA_OPTIONS := lit "--lto --debug"]> env) in
  exists env3,
    withExtendedExtraOptions (fun _ => None) [lit "--debug"] body env
    = (env3, Done 0)
    /\ env3 !! NUITKA_EXTRA_OPTIONS = env !! NUITKA_EXTRA_OPTIONS
    /\ forall k, k <> NUITKA_EXTRA_OPTIONS -> env3 !! k = env2 !! k.
Proof.
  intros env body env2.
  apply (extra_options_restored (fun _ => None) Z [lit "--debug"] body env env2 0).
  - discriminate.
  - reflexivity.
  - reflexivity.
  - reflexivity.
  - vm_compute. discriminate.
Defined.

(** X9. When the body raises, the statements after the [yield] do not
    run: the [with] statement raises the same, the environment stays as
    the body left it, and a body that did not touch the variable leaves it
    extended, different from what it was before. *)
Theorem extra_options_kept_when_body_raises :
  forall (setitem_check : pystr -> option error) (A : Type)
         (args : list pystr) (body : action A) (env env2 : environ) (e : error),
    let words := option_list (env !! NUITKA_EXTRA_OPTIONS) ++ args in
    args <> [] ->
    setitem_check (Py.join space words) = None ->
    body (<[NUITKA_EXTRA_OPTIONS := Py.join space words]> env) = (env2, Fails e) ->
    withExtendedExtraOptions setitem_check args body env = (env2, Fails e)
    /\ (env2 !! NUITKA_EXTRA_OPTIONS = Some (Py.join space words) ->
        env2 !! NUITKA_EXTRA_OPTIONS <> env !! NUITKA_EXTRA_OPTIONS).
Proof.
  intros setitem_check A args body env env2 e words Hargs Hok Hbody. split.
  - unfold withExtendedExtraOptions, addExtendedExtraOptions.
    rewrite bool_decide_eq_false_2 by done.
    unfold setitem at 1. rewrite fold_extend. fold words.
    assert (words <> []) as Hne.
    { unfold words. intros H. by apply app_eq_nil in H as [_ ?]. }
    destruct words as [|w words'] eqn:Ew; [done|]. by rewrite Hok, Hbody.
  - intros ->. unfold words.
    destruct (env !! NUITKA_EXTRA_OPTIONS) as [v|]; [|done].
    change (option_list (Some v) ++ args) with (v :: args).
    rewrite join_cons by done.
    intros [= H]. apply (f_equal length) in H.
    rewrite !length_app in H. cbn in H. lia.
Qed.

Lemma extra_options_kept_when_body_raises_witness :
  withExtendedExtraOptions (fun _ => None) [lit "--debug"]
    (fun env => (env, @Fails unit (Builtin OSError)))
    {[ NUITKA_EXTRA_OPTIONS := lit "--lto" ]}
  = (<[NUITKA_EXTRA_OPTIONS := lit "--lto --debug"]>
       {[ NUITKA_EXTRA_OPTIONS := lit "--lto" ]},
     Fails (Builtin OSError)).
Proof.
  apply (extra_options_kept_when_body_raises (fun _ => None) unit
           [lit "--debug"] (fun env => (env, Fails (Builtin OSError)))
           {[ NUITKA_EXTRA_OPTIONS := lit "--lto" ]}).
  - discriminate.
  - reflexivity.
  - reflexivity.
Defined.

(** X10. A [with withPythonPathChange(python_path)] statement with a path
    that counts as true extends the variable by a string that is never
    empty, so the test after the [yield] agrees with the one before it:
    when the body returns the variable is what it was before, set or not,
    and every other variable is as the body left it. With a path that
    counts as false the statement is its body. *)
Theorem python_path_restored :
  forall (setitem_check : pystr -> option error) (cwd : pystr) (A : Type)
         (python_path : path_arg) (body : action A) (env : environ),
    (truthy python_path = false ->
     withPythonPathChange setitem_check cwd python_path body env = body env)
    /\ (truthy python_path = true ->
        let added := normalized_path cwd python_path in
        let value : pystr :=
          match env !! PYTHONPATH with
          | Some old => old ++ [pathsep] ++ added
          | None => added
          end in
        added <> []
        /\ forall env2 a,
             setitem_check value = None ->
             (forall v, env !! PYTHONPATH = Some v -> setitem_check v = None) ->
             body (<[PYTHONPATH := value]> env) = (env2, Done a) ->
             (env !! PYTHONPATH = None -> is_Some (env2 !! PYTHONPATH)) ->
             exists env3,
               withPythonPathChange setitem_check cwd python_path body env
               = (env3, Done a)
               /\ env3 !! PYTHONPATH = env !! PYTHONPATH
               /\ forall k, k <> PYTHONPATH -> env3 !! k = env2 !! k).
Proof.
  intros setitem_check cwd A python_path body env. split.
  - intros Hf. unfold withPythonPathChange, enter_path_change. rewrite Hf.
    destruct (body env) as [env2 [a|e]]; [|done].
    unfold leave_path_change. by rewrite Hf.
  - intros Ht added value.
    pose proof (normalized_path_nonempty cwd python_path Ht) as Hne.
    split; [done|].
    intros env2 a Hok Hold Hbody Hkept.
    assert (truthy (PathStr added) = true) as Ht'.
    { cbn. apply negb_true_iff, eqb_false_iff. done. }
    unfold withPythonPathChange, enter_path_change. rewrite Ht.
    fold added. subst value.
    destruct (env !! PYTHONPATH) as [old|] eqn:Eold.
    + unfold setitem at 1. rewrite Hok. cbv beta iota. rewrite Hbody.
      unfold leave_path_change. rewrite Ht'. unfold setitem.
      rewrite (Hold old eq_refl).
      exists (<[PYTHONPATH := old]> env2). split; [done|]. split.
      * apply lookup_insert_eq.
      * intros k Hk. by apply lookup_insert_ne.
    + unfold setitem at 1. rewrite Hok. cbv beta iota. rewrite Hbody.
      unfold leave_path_change. rewrite Ht'. unfold delitem.
      destruct (Hkept eq_refl) as [v2 ->].
      exists (delete PYTHONPATH env2). split; [done|]. split.
      * apply lookup_delete_eq.
      * intros k Hk. by apply lookup_delete_ne.
Qed.

Lemma python_path_restored_witness :
  let env : environ := {[ PYTHONPATH := lit "/usr/lib" ]} in
  let body : action (option pystr) := fun env => (env, Done (env !! PYTHONPATH)) in
  let value := lit "/usr/lib:/opt/app/lib:/opt/x" in
  exists env3,
    withPythonPathChange (fun _ => None) (lit "/opt/app")
      (PathStr (lit "lib:../x")) body env
    = (env3, Done (Some value))
    /\ env3 !! PYTHONPATH = env !! PYTHONPATH
    /\ forall k, k <> PYTHONPATH -> env3 !! k = (<[PYTHONPATH := value]> env) !! k.
Proof.
  intros env body value.
  destruct (python_path_restored (fun _ => None) (lit "/opt/app")
              (option pystr) (PathStr (lit "lib:../x")) body env) as [_ H].
  destruct (H eq_refl) as [_ H'].
  apply (H' (<[PYTHONPATH := value]> env) (Some value)).
  - reflexivity.
  - reflexivity.
  - vm_compute. reflexivity.
  - vm_compute. discriminate.
Defined.

(** X11. [addToPythonPath], when it returns, keeps what was on the path:
    the old value is the end of the new one with [in_front], its
    beginning without, and no other variable changes. *)
Theorem add_to_python_path_keeps_old :
  forall (setitem_check : pystr -> option error) (python_path : path_arg)
         (in_front : bool) (env env' : environ),
    addToPythonPath setitem_check python_path in_front env = (env', Done tt) ->
    (forall k, k <> PYTHONPATH -> env' !! k = env !! k)
    /\ forall old, env !! PYTHONPATH = Some old ->
         exists added,
           env' !! PYTHONPATH
           = Some (if in_front then added ++ old else old ++ added).
Proof.
  intros setitem_check python_path in_front env env'.
  unfold addToPythonPath.
  destruct (truthy _).
  - destruct (env !! PYTHONPATH) as [old|] eqn:Eold.
    + destruct in_front; unfold setitem;
        destruct (setitem_check _); try done; intros [= <-]; (split;
          [intros k Hk; by apply lookup_insert_ne|]);
        intros old' [= <-]; rewrite lookup_insert_eq.
      * eexists (_ ++ [pathsep]). by rewrite <- app_assoc.
      * by eexists.
    + unfold setitem. destruct (setitem_check _); [done|]. intros [= <-].
      split; [|done]. intros k Hk. by apply lookup_insert_ne.
  - intros [= <-]. split; [done|]. intros old ->.
    exists []. destruct in_front; [done|]. by rewrite app_nil_r.
Qed.

Lemma add_to_python_path_keeps_old_witness :
  exists added,
    (<[PYTHONPATH := lit "/a:/b:/usr/lib"]>
       ({[ PYTHONPATH := lit "/usr/lib" ]} : environ)) !! PYTHONPATH
    = Some (added ++ lit "/usr/lib").
Proof.
  destruct (add_to_python_path_keeps_old (fun _ => None)
              (PathList [lit "/a"; lit "/b"]) true
              {[ PYTHONPATH := lit "/usr/lib" ]}
              (<[PYTHONPATH := lit "/a:/b:/usr/lib"]>
                 {[ PYTHONPATH := lit "/usr/lib" ]})) as [_ H].
  - reflexivity.
  - apply (H (lit "/usr/lib")). reflexivity.
Defined.

(** X12. A test for Python 2 only, named "..._2.py", that the version
    filter lets run is not converted with 2to3, under every version but
    the bare [(3,)]. *)
Theorem python2_only_tests_are_not_converted :
  forall (v : list Z) (filename : pystr),
    endswith (lit "_2.py") filename = true ->
    v <> [3] ->
    decideFilenameVersionSkip v filename = true ->
    decideNeeds2to3 v filename = false.
Proof.
  intros v filename Hend Hv. unfold decideFilenameVersionSkip, decideNeeds2to3.
  destruct (Py.startswith (lit "run_") filename); [done|].
  assert (strip_j2 filename = filename) as ->.
  { unfold strip_j2, endswith in *.
    let x := eval vm_compute in (reverse (lit "_2.py")) in
    change (reverse (lit "_2.py")) with x in Hend.
    let x := eval vm_compute in (reverse (lit ".j2")) in
    change (reverse (lit ".j2")) with x.
    destruct (reverse filename) as [|c r]; [done|].
    cbn [Py.startswith] in *.
    destruct (N.eqb_spec 121 c) as [<-|Hc]; [done | done]. }
  rewrite Hend. destruct (_ && _); [done|]. cbn [andb].
  unfold tuple_gtb, tuple_geb.
  destruct (tuple_ltb [3] v) eqn:E; [done|]. intros _.
  destruct (tuple_ltb_trichotomy v [3]) as [->|[?|?]]; [done | done | congruence].
Qed.

Lemma python2_only_tests_are_not_converted_witness :
  decideNeeds2to3 [2; 7; 18] (lit "ExecEval_2.py") = false.
Proof.
  apply (python2_only_tests_are_not_converted [2; 7; 18] (lit "ExecEval_2.py")).
  - vm_compute. reflexivity.
  - discriminate.
  - vm_compute. reflexivity.
Defined.

(** ** scanDirectoryForTestCases *)

Section ScanFacts.

Import Scan.

Lemma endswith_split (suffix s : pystr) :
  endswith suffix s = true ->
  s = take (length s - length suffix) s ++ suffix.
Proof.
  unfold endswith. rewrite startswith_prefix. intros [k Hk].
  apply (f_equal reverse) in Hk. rewrite reverse_involutive, reverse_app in Hk.
  rewrite reverse_involutive in Hk. rewrite Hk at 2. f_equal.
  rewrite Hk, length_app, Nat.add_sub. by rewrite take_app_length.
Qed.

(** A template name is the name without its ending, and the ending. *)
Lemma strip_j2_template (filename : pystr) :
  endswith (lit ".j2") filename = true ->
  filename = strip_j2 filename ++ lit ".j2".
Proof.
  intros H. unfold strip_j2. rewrite H.
  pose proof (endswith_split _ _ H) as Hs.
  replace (Py.slice_to (-3) filename)
    with (take (length filename - length (lit ".j2")) filename); [done|].
  unfold Py.slice_to, Py.clamp. cbn [Z.ltb Z.compare]. f_equal.
  replace (length (lit ".j2")) with 3%nat by (by vm_compute). lia.
Qed.

Lemma selected_strip_inj (filenames : list pystr) (f g : pystr) :
  f ∈ filenames -> g ∈ filenames ->
  selected filenames f = true -> selected filenames g = true ->
  strip_j2 f = strip_j2 g -> f = g.
Proof.
  intros Hf Hg Sf Sg Heq.
  destruct (endswith (lit ".j2") f) eqn:Ef, (endswith (lit ".j2") g) eqn:Eg.
  - rewrite (strip_j2_template f Ef), (strip_j2_template g Eg). by rewrite Heq.
  - unfold selected in Sg. rewrite Eg, orb_false_r in Sg.
    apply andb_true_iff in Sg as [_ Sg]. apply negb_true_iff in Sg.
    apply bool_decide_eq_false in Sg. destruct Sg.
    replace g with (strip_j2 f) by (rewrite Heq; unfold strip_j2; by rewrite Eg).
    by rewrite <- (strip_j2_template f Ef).
  - unfold selected in Sf. rewrite Ef, orb_false_r in Sf.
    apply andb_true_iff in Sf as [_ Sf]. apply negb_true_iff in Sf.
    apply bool_decide_eq_false in Sf. destruct Sf.
    replace f with (strip_j2 g) by (rewrite <- Heq; unfold strip_j2; by rewrite Ef).
    by rewrite <- (strip_j2_template g Eg).
  - unfold strip_j2 in Heq. by rewrite Ef, Eg in Heq.
Qed.

Context (python_version : list Z) (has_context : bool).
Context (render : pystr -> outcome pystr).
Context (write_error : pystr -> pystr -> option exception).

Abbreviation scan_loop :=
  (Scan.scan_loop python_version has_context render write_error).

(** The names the loop yields are the start of the names it is to yield:
    the names the version filter lets run, templates without their
    ending. *)
Lemma scan_loop_yields (filenames : list pystr) : forall log out,
  scan_loop filenames = (log, out) ->
  yields log `prefix_of`
    map strip_j2
      (List.filter (decideFilenameVersionSkip python_version) filenames).
Proof.
  induction filenames as [|f filenames IH]; intros log out;
    cbn [Scan.scan_loop List.filter map].
  - intros [= <- <-]. done.
  - destruct (decideFilenameVersionSkip python_version f); cbn [negb map];
      [|apply IH].
    unfold strip_j2 at 1.
    destruct (endswith (lit ".j2") f).
    + destruct (negb has_context); [intros [= <- <-]; apply prefix_nil|].
      destruct (render f) as [code| |]; try (intros [= <- <-]; apply prefix_nil).
      destruct (write_error _ _); [intros [= <- <-]; apply prefix_nil|].
      destruct (scan_loop filenames) as [log' out'] eqn:E.
      intros [= <- <-]. cbn. apply prefix_cons, (IH _ _ eq_refl).
    + destruct (scan_loop filenames) as [log' out'] eqn:E.
      intros [= <- <-]. cbn. apply prefix_cons, (IH _ _ eq_refl).
Qed.

(** Without a template among the names the loop returns, and yields the
    names the version filter lets run. *)
Lemma scan_loop_plain (filenames : list pystr) :
  Forall (fun f => endswith (lit ".j2") f = false) filenames ->
  scan_loop filenames
  = (map Yield (List.filter (decideFilenameVersionSkip python_version) filenames),
     Returned tt).
Proof.
  induction 1 as [|f filenames Hf _ IH]; cbn [Scan.scan_loop List.filter map];
    [done|].
  destruct (decideFilenameVersionSkip python_version f); cbn [negb map]; [|done].
  by rewrite Hf, IH.
Qed.

End ScanFacts.

Import Scan.

(** X13. No test case is yielded twice: for a directory listing without
    repetitions, the names that [scanDirectoryForTestCases] yields, the
    plain files and the files rendered from templates, are all different,
    however the scan ends. *)
Theorem scanned_test_cases_are_distinct :
  forall (python_version : list Z) (filenames : list pystr)
         (has_context : bool) (render : pystr -> outcome pystr)
         (write_error : pystr -> pystr -> option exception)
         (log : list step) (out : outcome unit),
    NoDup filenames ->
    scanDirectoryForTestCases python_version (Returned filenames) has_context
      render write_error = (log, out) ->
    NoDup (yields log).
Proof.
  intros python_version filenames has_context render write_error log out Hnd.
  unfold scanDirectoryForTestCases. intros H.
  apply scan_loop_yields in H as [rest H].
  assert (NoDup (yields log ++ rest)) as Hn;
    [|by apply NoDup_app in Hn as [? _]].
  rewrite <- H. apply (NoDup_fmap_2_strong strip_j2).
  - assert (forall f,
              f ∈ List.filter (decideFilenameVersionSkip python_version)
                    (merge_sort Py.le (List.filter (selected filenames) filenames)) ->
              f ∈ filenames /\ selected filenames f = true) as Hsel.
    { intros f Hf. apply list_elem_of_In, filter_In in Hf as [Hf _].
      rewrite <- list_elem_of_In, merge_sort_Permutation in Hf.
      apply list_elem_of_In, filter_In in Hf as [Hf Sf].
      by rewrite <- list_elem_of_In in Hf. }
    intros f g Hf Hg. destruct (Hsel f Hf), (Hsel g Hg).
    by apply (selected_strip_inj filenames).
  - apply NoDup_ListNoDup, List.NoDup_filter, NoDup_ListNoDup.
    rewrite merge_sort_Permutation.
    by apply NoDup_ListNoDup, List.NoDup_filter, NoDup_ListNoDup.
Qed.

Lemma scanned_test_cases_are_distinct_witness :
  let filenames :=
    [lit "Basic.py"; lit "Gen.py.j2"; lit "Gen.py"; lit "run_all.py"] in
  let log :=
    [Yield (lit "Basic.py"); WriteFile (lit "Gen.py") (header ++ lit "pass");
     Yield (lit "Gen.py")] in
  scanDirectoryForTestCases [3; 9; 0] (Returned filenames) true
    (fun _ => Returned (lit "pass")) (fun _ _ => None) = (log, Returned tt)
  /\ NoDup (yields log).
Proof.
  intros filenames log.
  assert (scanDirectoryForTestCases [3; 9; 0] (Returned filenames) true
            (fun _ => Returned (lit "pass")) (fun _ _ => None)
          = (log, Returned tt)) as H by (vm_compute; reflexivity).
  split; [exact H|].
  apply (scanned_test_cases_are_distinct [3; 9; 0] filenames true
           (fun _ => Returned (lit "pass")) (fun _ _ => None) log (Returned tt)).
  - apply (bool_decide_unpack _). vm_compute. exact I.
  - exact H.
Defined.

(** X14. In a directory without templates the scan returns, writes no
    file, and yields the ".py" files that the version filter lets run, in
    ascending order of their names. *)
Theorem scan_without_templates :
  forall (python_version : list Z) (filenames : list pystr)
         (has_context : bool) (render : pystr -> outcome pystr)
         (write_error : pystr -> pystr -> option exception),
    Forall (fun f => endswith (lit ".j2") f = false) filenames ->
    scanDirectoryForTestCases python_version (Returned filenames) has_context
      render write_error
    = (map Yield
         (List.filter (decideFilenameVersionSkip python_version)
            (merge_sort Py.le (List.filter (endswith (lit ".py")) filenames))),
       Returned tt).
Proof.
  intros python_version filenames has_context render write_error Hall.
  unfold scanDirectoryForTestCases.
  assert (List.filter (selected filenames) filenames
          = List.filter (endswith (lit ".py")) filenames) as ->.
  { apply filter_ext_in. intros f Hf. unfold selected.
    rewrite Forall_forall in Hall. rewrite (Hall f) by (by apply list_elem_of_In).
    rewrite orb_false_r. rewrite bool_decide_eq_false_2; [by rewrite andb_true_r|].
    intros Hin. apply Hall in Hin. by rewrite endswith_app in Hin. }
  apply scan_loop_plain.
  apply Forall_forall. intros f Hf.
  rewrite merge_sort_Permutation in Hf.
  apply list_elem_of_In, filter_In in Hf as [Hf _].
  rewrite Forall_forall in Hall. by apply Hall, list_elem_of_In.
Qed.

Lemma scan_without_templates_witness :
  scanDirectoryForTestCases [3; 6; 1]
    (Returned [lit "Later38.py"; lit "notes.txt"; lit "Basic.py"])
    false (fun _ => Raised OSError) (fun _ _ => None)
  = ([Yield (lit "Basic.py")], Returned tt).
Proof.
  rewrite (scan_without_templates [3; 6; 1]
             [lit "Later38.py"; lit "notes.txt"; lit "Basic.py"]).
  - vm_compute. reflexivity.
  - repeat constructor.
Defined.

(** ** Totals and snapshots *)

Section TotalFacts.

(** An integer of less than 54 bits is a double. *)
Lemma round_small (n : Z) : Z.abs n < 2 ^ 53 -> Double.round n = Double.Finite n.
Proof.
  intros Hn. unfold Double.round. cbv zeta.
  assert ((Z.log2 (Z.abs n) - 52 <=? 0) = true) as ->; [|done].
  apply Z.leb_le.
  destruct (decide (Z.abs n = 0)) as [->|Hz]; [done|].
  assert (Z.log2 (Z.abs n) < 53); [|lia].
  apply Z.log2_lt_pow2; lia.
Qed.

Lemma int_pass_acc (objects : list pyobject) : forall acc,
  int_pass acc objects
  = acc + fold_right Z.add 0 (map obj_refcount (List.filter is_float objects)).
Proof.
  unfold int_pass.
  induction objects as [|x objects IH]; intros acc; cbn [fold_left List.filter].
  - cbn. lia.
  - rewrite IH. destruct (is_float x); cbn [map fold_right]; lia.
Qed.

(** Below 2^53 the float of the first loop holds the exact sum. *)
Lemma float_pass_exact (objects : list pyobject) : forall acc,
  0 <= acc ->
  Forall (fun obj => 0 <= obj_refcount obj)
    (List.filter (fun obj => negb (is_float obj)) objects) ->
  acc + fold_right Z.add 0
          (map obj_refcount (List.filter (fun obj => negb (is_float obj)) objects))
  < 2 ^ 53 ->
  float_pass (Double.Finite acc) objects
  = Returned (Double.Finite
                (acc + fold_right Z.add 0
                         (map obj_refcount
                            (List.filter (fun obj => negb (is_float obj)) objects)))).
Proof.
  induction objects as [|x objects IH]; intros acc Hacc Hpos Hsum;
    cbn [float_pass List.filter] in *.
  - cbn. by rewrite Z.add_0_r.
  - destruct (is_float x); cbn [negb] in *; [by apply IH|].
    cbn [map fold_right] in *. apply Forall_cons in Hpos as [Hx Hpos].
    assert (0 <= fold_right Z.add 0
                   (map obj_refcount
                      (List.filter (fun obj => negb (is_float obj)) objects)))
      as Hrest.
    { clear -Hpos. induction Hpos as [|y l Hy _ IHl]; cbn; lia. }
    unfold Double.add_int. rewrite (round_small (obj_refcount x)) by lia.
    rewrite round_small by lia. cbn [mbind outcome_bind].
    rewrite IH by (done || lia). do 2 f_equal. lia.
Qed.

Lemma sum_split (keep : pyobject -> bool) (objects : list pyobject) :
  fold_right Z.add 0 (map obj_refcount (List.filter (fun x => negb (keep x)) objects))
  + fold_right Z.add 0 (map obj_refcount (List.filter keep objects))
  = fold_right Z.add 0 (map obj_refcount objects).
Proof.
  induction objects as [|x objects IH]; cbn [List.filter map fold_right]; [done|].
  destruct (keep x); cbn [negb map fold_right]; lia.
Qed.

(** The key an object is counted under in a snapshot, compared with [k]. *)
Lemma snap_step_get before maps x maps' k :
  (forall value, obj_kind x <> KStr value) ->
  snap_step before maps x = Returned maps' ->
  (is_census_map x = true /\ maps' = maps)
  \/ exists k0,
       is_census_map x = false /\ key_of x = Returned k0
       /\ Dict.get k (current before maps')
          = if Py.eqb k k0
            then Some (match Dict.get k0 (current before maps) with
                       | Some v => v + obj_refcount x
                       | None => obj_refcount x
                       end)
            else Dict.get k (current before maps).
Proof.
  intros Hkind. unfold snap_step.
  destruct (is_census_map x); [intros [= <-]; by left|].
  assert ((match obj_kind x with
           | KStr value =>
               Dict.contains value (m1 maps) || Dict.contains value (m2 maps)
           | _ => false
           end) = false) as ->.
  { destruct (obj_kind x) eqn:E; try done. by destruct (Hkind value). }
  destruct (key_of x) as [k0| |]; cbn; [|done..].
  intros [= <-]. right. exists k0. split; [done|]. split; [done|].
  by rewrite current_set_current, dict_get_add.
Qed.

Lemma snap_loop_sums before k objects : forall maps maps',
  Forall (fun x => forall value, obj_kind x <> KStr value) objects ->
  snap_loop before maps objects = Returned maps' ->
  let hits :=
    List.filter
      (fun x => negb (is_census_map x)
                && match key_of x with
                   | Returned k0 => Py.eqb k k0
                   | _ => false
                   end) objects in
  Dict.get k (current before maps')
  = match Dict.get k (current before maps) with
    | Some v => Some (v + fold_right Z.add 0 (map obj_refcount hits))
    | None =>
        if bool_decide (hits = []) then None
        else Some (fold_right Z.add 0 (map obj_refcount hits))
    end.
Proof.
  induction objects as [|x objects IH]; intros maps maps' Hall;
    cbn [snap_loop List.filter].
  - intros [= <-]. cbn. destruct (Dict.get k _); [f_equal; lia | done].
  - apply Forall_cons in Hall as [Hx Hall].
    destruct (snap_step before maps x) as [maps1| |] eqn:E; cbn; [|done..].
    intros Hloop. rewrite (IH _ _ Hall Hloop).
    destruct (snap_step_get _ _ _ _ k Hx E) as [[-> ->]|(k0 & -> & -> & ->)];
      cbn [negb andb]; [done|].
    destruct (Py.eqb k k0) eqn:Ek; [|done].
    apply eqb_true_iff in Ek as <-. cbn [map fold_right].
    destruct (Dict.get k (current before maps)); f_equal; lia.
Qed.

End TotalFacts.

(** X15. Outside a debug build, while the reference counts of the
    objects that are no floats are not negative and add up to less than
    2^53, the total reference count is the sum of the reference counts of
    all objects the collector tracks, after a collection: the float of the
    first pass is exact there, and the two passes, one without the floats
    and one over the floats, add up every object once. *)
Theorem total_reference_count_is_the_sum :
  forall (W : Type) (interp : Interp W) (w : W),
    let all_objects := gc_get_objects interp (gc_collect interp w) in
    let others := List.filter (fun obj => negb (is_float obj)) all_objects in
    debug_python interp = false ->
    Forall (fun obj => 0 <= obj_refcount obj) others ->
    fold_right Z.add 0 (map obj_refcount others) < 2 ^ 53 ->
    getTotalReferenceCount interp w
    = Returned (fold_right Z.add 0 (map obj_refcount all_objects),
                gc_collect interp w).
Proof.
  intros W interp w all_objects others Hdebug Hpos Hsum.
  unfold getTotalReferenceCount. rewrite Hdebug.
  fold all_objects. rewrite float_pass_exact by done.
  cbn [mbind outcome_bind Double.to_int]. rewrite int_pass_acc.
  do 2 f_equal. rewrite Z.add_0_l. apply sum_split.
Qed.

Lemma total_reference_count_is_the_sum_witness :
  getTotalReferenceCount heap heap0 = Returned (11, heap0).
Proof.
  rewrite (total_reference_count_is_the_sum (list pyobject) heap heap0).
  - vm_compute. reflexivity.
  - reflexivity.
  - repeat constructor; vm_compute; discriminate.
  - vm_compute. reflexivity.
Defined.

(** From 2^53 on the first pass rounds: an object with 2^53 references
    and one with a single reference give the float 2^53, to which the three
    references of a float are added exactly. *)
Lemma total_reference_count_rounds :
  getTotalReferenceCount heap
    [ {| obj_identity := IsOther 1; obj_kind := KObject None;
         obj_refcount := 9007199254740992 |};
      {| obj_identity := IsOther 2; obj_kind := KObject None;
         obj_refcount := 1 |};
      {| obj_identity := IsOther 3; obj_kind := KFloat None;
         obj_refcount := 3 |} ]
  = Returned (9007199254740995,
              [ {| obj_identity := IsOther 1; obj_kind := KObject None;
                   obj_refcount := 9007199254740992 |};
                {| obj_identity := IsOther 2; obj_kind := KObject None;
                   obj_refcount := 1 |};
                {| obj_identity := IsOther 3; obj_kind := KFloat None;
                   obj_refcount := 3 |} ]).
Proof. by vm_compute. Qed.

(** X16. Among live objects none of which is a plain [str], as the
    collector tracks none, a snapshot that returns holds under each key the
    sum of the reference counts of the objects with that key, the census
    maps left out, and holds no key that no such object has. *)
Theorem snapshot_sums_by_key :
  forall (W : Type) (interp : Interp W) (before : bool) (w w' : W)
         (maps maps' : Maps) (k : pystr),
    let objects := gc_get_objects interp (gc_collect interp w) in
    let hits :=
      List.filter
        (fun x => negb (is_census_map x)
                  && match key_of x with
                     | Returned k0 => Py.eqb k k0
                     | _ => false
                     end) objects in
    Forall (fun x => forall value, obj_kind x <> KStr value) objects ->
    snapObjRefCntMap interp before w maps = Returned (w', maps') ->
    Dict.get k (current before maps')
    = if bool_decide (hits = []) then None
      else Some (fold_right Z.add 0 (map obj_refcount hits)).
Proof.
  intros W interp before w w' maps maps' k objects hits Hall.
  unfold snapObjRefCntMap.
  destruct (snap_loop _ _ _) as [maps1| |] eqn:E; cbn; [|done..].
  intros [= <- <-].
  rewrite (snap_loop_sums before k _ _ _ Hall E).
  by rewrite current_set_current.
Qed.

Lemma snapshot_sums_by_key_witness :
  let second_a :=
    {| obj_identity := IsOther 4; obj_kind := KObject (Some (lit "a"));
       obj_refcount := 7 |} in
  exists maps',
    snapObjRefCntMap heap true (heap0 ++ [second_a]) no_maps
    = Returned (heap0 ++ [second_a], maps')
    /\ Dict.get (lit "a") (current true maps') = Some 9.
Proof.
  intros second_a.
  assert (exists maps',
            snapObjRefCntMap heap true (heap0 ++ [second_a]) no_maps
            = Returned (heap0 ++ [second_a], maps')) as [maps' H].
  { eexists. vm_compute. reflexivity. }
  exists maps'. split; [exact H|].
  rewrite (snapshot_sums_by_key (list pyobject) heap true (heap0 ++ [second_a])
             (heap0 ++ [second_a]) no_maps maps' (lit "a")).
  - vm_compute. reflexivity.
  - repeat constructor; discriminate.
  - exact H.
Defined.

(** ** The report and what a session prints *)

Section ReportEmpty.

Lemma dict_get_NoDup (m : dict) (k : pystr) (c : Z) :
  NoDup (Dict.keys m) -> In (k, c) m -> Dict.get k m = Some c.
Proof.
  induction m as [|[k0 v] m IH]; cbn [Dict.keys map Dict.get In fst]; [done|].
  intros Hnd [[= -> ->]|Hin].
  - by rewrite eqb_refl.
  - apply NoDup_cons in Hnd as [Hk Hnd].
    destruct (Py.eqb k k0) eqn:E; [|by apply IH].
    apply eqb_true_iff in E as ->. destruct Hk.
    apply list_elem_of_In, in_map_iff. by exists (k0, c).
Qed.

Lemma dict_get_is_Some (m : dict) (k : pystr) (c : Z) :
  In (k, c) m -> exists c', Dict.get k m = Some c'.
Proof.
  induction m as [|[k0 v] m IH]; cbn [Dict.get In]; [done|].
  intros [[= -> ->]|Hin].
  - rewrite eqb_refl. eauto.
  - destruct (Py.eqb k k0); eauto.
Qed.

Lemma flat_map_nil {A B : Type} (f : A -> list B) (l : list A) :
  (forall x, In x l -> f x = []) -> flat_map f l = [].
Proof.
  induction l as [|x l IH]; cbn [flat_map]; [done|].
  intros H. rewrite (H x) by (by left). apply IH. intros y Hy. apply H. by right.
Qed.

End ReportEmpty.

(** X17. The report of differences is empty exactly if the two snapshots
    agree on every key. *)
Theorem report_empty_iff_snapshots_agree :
  forall (m1 m2 : dict),
    NoDup (Dict.keys m1) ->
    report_differences m1 m2 = []
    <-> forall key, Dict.get key m1 = Dict.get key m2.
Proof.
  intros m1 m2 Hnd. split.
  - intros Hnil key.
    destruct (report_differences_lines m1 m2 key) as (Hextra & Hmissing & Hchanged).
    rewrite Hnil in Hextra, Hmissing, Hchanged.
    destruct (Dict.get key m1) as [c1|] eqn:E1, (Dict.get key m2) as [c2|] eqn:E2;
      try done.
    + destruct (decide (c1 = c2)) as [->|Hne]; [done|].
      destruct (Hchanged c1 c2 eq_refl eq_refl Hne).
    + destruct (Hextra c1 eq_refl eq_refl).
    + destruct (Hmissing c2 eq_refl eq_refl).
  - intros Hagree. unfold report_differences.
    rewrite !flat_map_nil; [done| |].
    + intros [key c] Hin. cbn [report_m2_key]. unfold Dict.contains.
      destruct (dict_get_is_Some _ _ _ Hin) as [c' Hc'].
      by rewrite Hagree, Hc'.
    + intros [key c] Hin. cbn [report_m1_key].
      rewrite <- Hagree, (dict_get_NoDup _ _ _ Hnd Hin). by rewrite Z.eqb_refl.
Qed.

Lemma report_empty_iff_snapshots_agree_witness :
  report_differences [(lit "a", 2); (lit "b", 5)] [(lit "b", 5); (lit "a", 2)] = [].
Proof.
  apply (report_empty_iff_snapshots_agree
           [(lit "a", 2); (lit "b", 5)] [(lit "b", 5); (lit "a", 2)]).
  - apply (bool_decide_unpack _). vm_compute. exact I.
  - intros key. cbn [Dict.get].
    destruct (Py.eqb key (lit "a")) eqn:Ea, (Py.eqb key (lit "b")) eqn:Eb; try done.
    apply eqb_true_iff in Ea, Eb. subst key. discriminate Eb.
Defined.

(** X18. What a session prints, when it returns: the name of the probe,
    then "PASSED" if it returns [True]; if it returns [False], "FAILED"
    with the two totals of the last round it ran and their difference, and,
    when explaining, the report of differences of the census maps. The
    session returns where no exception is pending, the totals can be taken
    and, when explaining, the census is in order. *)
Theorem leak_check_output :
  forall (W : Type) (interp : Interp W) (checked_function : W -> W)
         (name : pystr) (max_rounds : Z) (explain : bool) (w : W) (maps : Maps),
    max_rounds > 0 ->
    (forall w, exc_info_clean interp w = true) ->
    (forall w, exists total w',
       getTotalReferenceCount interp w = Returned (total, w')) ->
    (explain = true -> forall w, census_ok (gc_get_objects interp w) = true) ->
    exists v,
      checkReferenceCount interp checked_function name max_rounds explain w maps
      = Returned v
      /\ (returned v = true -> printed v = [name ++ lit ": "; lit "PASSED"])
      /\ (returned v = false ->
          exists a b,
            last (rounds (final v)) = Some (a, b) /\ a <> b
            /\ printed v
               = [name ++ lit ": ";
                  lit "FAILED " ++ decimal a ++ lit " " ++ decimal b
                  ++ lit " leaked " ++ decimal (b - a)]
                 ++ (if explain
                     then lit "REPORT of differences:"
                          :: report_differences (m1 (census (final v)))
                               (m2 (census (final v)))
                     else [])).
Proof.
  intros W interp checked_function name max_rounds explain w maps Hmax Hclean
    Htotal Hcensus.
  destruct (session_spec interp checked_function name max_rounds explain
              Hmax Hclean Htotal Hcensus w maps)
    as (v & pre & e & starts & Hv & Hr & Hpre & Hlen & _ & _ & _ & Hcase).
  exists v. split; [done|]. split.
  - intros Ht. destruct Hcase as [(_ & _ & Hp)|(_ & Hf & _)]; [done | congruence].
  - intros Hf. destruct Hcase as [(_ & Ht & _)|(Hne & _ & _ & Hp)]; [congruence|].
    destruct e as [a b]. exists a, b. rewrite Hr, last_snoc. done.
Qed.

Lemma leak_check_output_witness :
  exists v,
    checkReferenceCount counter leak_one (lit "simpleFunction2") 3 false 100 no_maps
    = Returned v
    /\ (returned v = false ->
        exists a b,
          last (rounds (final v)) = Some (a, b) /\ a <> b
          /\ printed v
             = [lit "simpleFunction2" ++ lit ": ";
                lit "FAILED " ++ decimal a ++ lit " " ++ decimal b
                ++ lit " leaked " ++ decimal (b - a)] ++ []).
Proof.
  destruct (leak_check_output Z counter leak_one (lit "simpleFunction2") 3 false
              100 no_maps)
    as (v & Hv & _ & Hf).
  - lia.
  - intros w. reflexivity.
  - intros w. exists w, w. reflexivity.
  - intros H. discriminate H.
  - exists v. split; [exact Hv | exact Hf].
Defined.

(** ** The auditor, by whitelist and by report *)

Section AuditorMore.

Lemma whitelisted_mono (wl wl' : list pystr) (q : pystr) :
  (forall entry, In entry wl -> In entry wl') ->
  whitelisted wl q = true -> whitelisted wl' q = true.
Proof.
  intros Hsub. rewrite !whitelisted_spec. intros (entry & Hin & H).
  exists entry. split; [by apply Hsub | done].
Qed.

Lemma filter_filter_and {A : Type} (f g : A -> bool) (l : list A) :
  List.filter f (List.filter g l) = List.filter (fun x => g x && f x) l.
Proof.
  induction l as [|x l IH]; cbn [List.filter]; [done|].
  destruct (g x); cbn [List.filter andb]; [|done]. by rewrite IH.
Qed.

End AuditorMore.

(** X19. A longer whitelist only takes paths off the result: with every
    entry of [white_list] also in [white_list'], the violations under
    [white_list'] are those under [white_list] that [white_list'] does not
    cover, in the same order. The order of the entries and their
    repetition make no difference. *)
Theorem audit_longer_whitelist :
  forall (loaded_filenames white_list white_list' : list pystr),
    (forall entry, In entry white_list -> In entry white_list') ->
    checkRuntimeLoadedFilesForOutsideAccesses loaded_filenames white_list'
    = List.filter (fun q => negb (whitelisted white_list' q))
        (checkRuntimeLoadedFilesForOutsideAccesses loaded_filenames white_list).
Proof.
  intros loaded_filenames white_list white_list' Hsub.
  rewrite !audit_filter, filter_filter_and.
  apply filter_ext. intros q. unfold allowed.
  destruct (whitelisted white_list q) eqn:E.
  - by rewrite (whitelisted_mono _ _ _ Hsub E).
  - destruct (whitelisted white_list' q), (exempt q); done.
Qed.

Lemma audit_longer_whitelist_witness :
  checkRuntimeLoadedFilesForOutsideAccesses
    [lit "/home/user/secret"; lit "/opt/app/data.bin"]
    [lit "/opt/app"; lit "/usr/lib"]
  = List.filter (fun q => negb (whitelisted [lit "/opt/app"; lit "/usr/lib"] q))
      (checkRuntimeLoadedFilesForOutsideAccesses
         [lit "/home/user/secret"; lit "/opt/app/data.bin"] [lit "/usr/lib"]).
Proof.
  apply (audit_longer_whitelist
           [lit "/home/user/secret"; lit "/opt/app/data.bin"]
           [lit "/usr/lib"] [lit "/opt/app"; lit "/usr/lib"]).
  intros entry [<-|[]]. right. left. reflexivity.
Defined.

(** X20. Each loaded file is judged on its own: the violations of two
    reports, one after the other, are the violations of the first followed
    by those of the second. *)
Theorem audit_of_joined_reports :
  forall (loaded_filenames loaded_filenames' white_list : list pystr),
    checkRuntimeLoadedFilesForOutsideAccesses
      (loaded_filenames ++ loaded_filenames') white_list
    = checkRuntimeLoadedFilesForOutsideAccesses loaded_filenames white_list
      ++ checkRuntimeLoadedFilesForOutsideAccesses loaded_filenames' white_list.
Proof.
  intros loaded_filenames loaded_filenames' white_list.
  by rewrite !audit_filter, map_app, List.filter_app.
Qed.

(** ** The tracer, by platform *)

Section TracerMore.

Lemma depends_loop_files (h : Host) (path : pystr) (lines : list pystr) :
  forall inside result result',
    depends_loop h path inside result lines = Returned result' ->
    forall f, In f result' ->
      In f result
      \/ (isfile h f = true /\ f <> nt_normcase h (nt_abspath h path)).
Proof.
  induction lines as [|line lines IH]; intros inside result result';
    cbn [depends_loop].
  - intros [= <-] f Hf. by left.
  - destruct (Py.contains (lit "| Module Dependency Tree |") line); [apply IH|].
    destruct inside; cbn [negb]; [|apply IH].
    destruct (Py.contains (lit "| Module List |") line);
      [intros [= <-] f Hf; by left|].
    destruct (Py.contains (lit "]") line); cbn [negb]; [|apply IH].
    destruct (Py.contains (lit "?") _); [apply IH|].
    set (dll := nt_normcase h (rstrip _)).
    destruct (isfile h dll) eqn:Efile; cbn [negb]; [|done].
    destruct (Py.eqb dll _) eqn:Eself; [apply IH|].
    intros H f Hf. destruct (IH _ _ _ H f Hf) as [Hin|?]; [|by right].
    apply in_app_iff in Hin as [?|[<-|[]]]; [by left|].
    right. split; [done|]. by apply eqb_false_iff.
Qed.

Lemma normpath_isabs (path : pystr) :
  isabs path = true -> isabs (normpath path) = true.
Proof.
  unfold isabs, normpath. intros Habs.
  destruct path as [|c path]; [done|].
  rewrite (proj2 (eqb_false_iff (c :: path) [])) by done.
  rewrite Habs. cbv zeta.
  destruct (Py.startswith [sep; sep] (c :: path) && _).
  - destruct (Py.eqb _ []) eqn:E; [by apply eqb_true_iff in E|]. done.
  - destruct (Py.eqb _ []) eqn:E; [by apply eqb_true_iff in E|]. done.
Qed.

Lemma abspath_isabs (cwd path : pystr) :
  isabs cwd = true -> isabs (abspath cwd path) = true.
Proof.
  intros Hcwd. unfold abspath. apply normpath_isabs.
  destruct (isabs path) eqn:E; [done|].
  unfold join. unfold isabs in E. rewrite E.
  unfold isabs in *. destruct cwd as [|c cwd]; [done|].
  destruct (_ || _); cbn [app Py.startswith] in *; done.
Qed.

Lemma utf8_decode_isabs (s t : pystr) :
  utf8_decode s = Some t -> isabs s = true -> isabs t = true.
Proof.
  unfold isabs. destruct s as [|c s]; [done|]. cbn [Py.startswith].
  rewrite andb_true_r. intros H Hc. apply N.eqb_eq in Hc. subst c.
  cbn in H. destruct (utf8_decode s); [|done]. by injection H as <-.
Qed.

End TracerMore.

(** X21. On Windows every entry of the returned list is a file, and none
    is the traced binary itself. *)
Theorem nt_trace_holds_files_only :
  forall (h : Host) (path : pystr) (trace_stderr : bool) (result : list pystr),
    os_name h = lit "nt" ->
    getRuntimeTraceOfLoadedFiles h path trace_stderr = Returned result ->
    forall f, In f result ->
      isfile h f = true /\ f <> nt_normcase h (nt_abspath h path).
Proof.
  intros h path trace_stderr result Hos. unfold getRuntimeTraceOfLoadedFiles.
  destruct (loaded_files h path) as [raw| |] eqn:E; cbn; [|done..].
  intros [= <-] f Hf. rewrite sorted_set_elem_of in Hf.
  unfold loaded_files in E. rewrite Hos in E.
  replace (Py.eqb (lit "nt") (lit "posix")) with false in E by (by vm_compute).
  rewrite eqb_refl in E.
  destruct (depends_loop_files _ _ _ _ _ _ E f Hf) as [[]|?]. done.
Qed.

Lemma nt_trace_holds_files_only_witness :
  getRuntimeTraceOfLoadedFiles windows_host (lit "c:\app\prog.exe") true
  = Returned [lit "c:\windows\system32\kernel32.dll"]
  /\ isfile windows_host (lit "c:\windows\system32\kernel32.dll") = true
  /\ lit "c:\windows\system32\kernel32.dll"
     <> nt_normcase windows_host (nt_abspath windows_host (lit "c:\app\prog.exe")).
Proof.
  assert (getRuntimeTraceOfLoadedFiles windows_host (lit "c:\app\prog.exe") true
          = Returned [lit "c:\windows\system32\kernel32.dll"]) as Hrun.
  { vm_compute. reflexivity. }
  split; [exact Hrun|].
  apply (nt_trace_holds_files_only windows_host (lit "c:\app\prog.exe") true
           [lit "c:\windows\system32\kernel32.dll"]).
  - reflexivity.
  - exact Hrun.
  - left. reflexivity.
Defined.

(** X22. On POSIX, in an absolute working directory, every entry of the
    returned list is an absolute path. *)
Theorem posix_trace_holds_absolute_paths :
  forall (h : Host) (path : pystr) (trace_stderr : bool) (result : list pystr),
    os_name h = lit "posix" ->
    isabs (getcwd h) = true ->
    getRuntimeTraceOfLoadedFiles h path trace_stderr = Returned result ->
    forall f, In f result -> isabs f = true.
Proof.
  intros h path trace_stderr result Hos Hcwd. unfold getRuntimeTraceOfLoadedFiles.
  destruct (loaded_files h path) as [raw| |] eqn:E; cbn; [|done..].
  intros [= <-] f Hf. rewrite sorted_set_elem_of in Hf.
  apply (posix_result_members h path raw Hos E) in Hf
    as (line & m & _ & Hm & Hdec).
  assert (isabs m = true) as Hm'.
  { unfold trace_line in Hm. repeat case_match; try done.
    all: apply in_map_iff in Hm as (p & <- & _); by apply abspath_isabs. }
  destruct (python3 h).
  - by apply (utf8_decode_isabs m f).
  - by injection Hdec as <-.
Qed.

Lemma posix_trace_holds_absolute_paths_witness :
  isabs (lit "/opt/app/data.bin") = true.
Proof.
  apply (posix_trace_holds_absolute_paths linux_host (lit "/opt/app/prog") true
           [lit "/opt/app/data.bin"; lit "/opt/app/prog"; lit "/proc/self/exe"]).
  - reflexivity.
  - reflexivity.
  - vm_compute. reflexivity.
  - left. reflexivity.
Defined.

(** X23. On a POSIX machine that traces with strace, the function
    returns a list only after strace was found on the PATH and ended with
    status 0. Without a PATH it raises [KeyError]; without strace on the
    PATH it leaves the process with a message. *)
Theorem posix_trace_needs_a_tracer :
  forall (h : Host) (path : pystr) (trace_stderr : bool),
    let r := getRuntimeTraceOfLoadedFiles h path trace_stderr in
    os_name h = lit "posix" ->
    uses_dtruss h = false ->
    (environ_PATH h = None -> r = Raised KeyError)
    /\ (isExecutableCommand h (lit "strace") = Returned false ->
        r = Exited (ExitMessage
                      "Error, needs 'strace' on your system to scan used libraries."))
    /\ (forall result, r = Returned result ->
        isExecutableCommand h (lit "strace") = Returned true
        /\ fst (run_tracer h [lit "strace"; lit "-e"; lit "file"; lit "-s4096"; path])
           = 0).
Proof.
  intros h path trace_stderr r Hos Hdtruss. subst r.
  unfold getRuntimeTraceOfLoadedFiles, loaded_files, require_tracer, traced,
    tracer_args.
  rewrite Hos, eqb_refl, Hdtruss. split; [|split].
  - intros Hpath. unfold isExecutableCommand. by rewrite Hpath.
  - by intros ->.
  - intros result.
    destruct (isExecutableCommand h (lit "strace")) as [[]| |]; cbn; [|done..].
    destruct (_ =? 0) eqn:E; cbn; [|done].
    intros _. split; [done|]. by apply Z.eqb_eq.
Qed.

Lemma posix_trace_needs_a_tracer_witness :
  isExecutableCommand linux_host (lit "strace") = Returned true
  /\ fst (run_tracer linux_host
            [lit "strace"; lit "-e"; lit "file"; lit "-s4096"; lit "/opt/app/prog"])
     = 0.
Proof.
  destruct (posix_trace_needs_a_tracer linux_host (lit "/opt/app/prog") true)
    as (_ & _ & H).
  - reflexivity.
  - reflexivity.
  - apply (H [lit "/opt/app/data.bin"; lit "/opt/app/prog"; lit "/proc/self/exe"]).
    vm_compute. reflexivity.
Defined.

(** ** The staging directory and the converted copy *)

Section ComparisonMore.




End ComparisonMore.

(** X24. Cleaning the staging directory fails, with the [OSError] of the
    removal, exactly if there is an entry "@test", its removal fails and
    the entry is still there afterwards; otherwise it returns. The shell is
    asked to remove the directory exactly on Windows after a failed
    removal, and nothing but "@test" is removed. *)
Theorem test_dir_cleanup_outcome :
  forall (nt : bool) (t : TestDir),
    let r := removeCPythonTestSuiteDir nt t in
    let failed := (test_isdir t || test_isfile t) && removal_fails t in
    snd r = (if failed && exists_after t then Raised OSError else Returned tt)
    /\ (In (System (lit "rmdir /S /Q @test")) (fst r) <-> nt && failed = true)
    /\ (forall path,
          In (RemoveDirectory path) (fst r) \/ In (Unlink path) (fst r) ->
          path = at_test).
Proof.
  intros nt [isdir isfile fails still]. cbv zeta.
  unfold removeCPythonTestSuiteDir. cbn [test_isdir test_isfile removal_fails
    exists_after].
  destruct nt, isdir, isfile, fails, still; cbn;
    (split; [done|]);
    (split;
     [split;
      [intros H; try done; by repeat destruct H as [H|H]
      |intros H; try done; auto]
     |]);
    intros path [H|H]; repeat destruct H as [H|H]; try done; congruence.
Qed.




